(** * Custom-P5: a shallow embedding of [src/model/t5.py]

    The development follows the Python module top-down: the exceptions the
    code can raise, the values that travel in samples and batches, the
    [torch]/[numpy] primitives the module calls, then [UserEmbeds] and
    [T5FineTuned] with its methods, and finally the properties.

    Conventions.
    - Integer tensors ([int64]) hold [Z]; the one arithmetic operation the
      module performs on them ([user_idxs - 1]) wraps as [int64] does.
    - Floating-point tensors hold exact rationals [Q]: rounding is outside
      the model, the indexing, broadcasting and masking structure is not.
    - A Python [dict] is a [gmap string _]; an exception is a value of
      [exn] carried by the [result] monad.
    - Randomness ([random.choice], the Bernoulli noise of [dropout1d]) is an
      explicit argument of the function that consumes it.
    - Device placement ([.to(self.device)]) is the identity. *)

From Stdlib Require Import ZArith QArith Lia.
From stdpp Require Import base list strings gmap.

Local Open Scope string_scope.
Local Open Scope list_scope.

(** ** Exceptions and the [result] monad *)

Inductive exn : Type :=
| AssertionError (msg : string)
| KeyError (key : string)
| IndexError (msg : string)
| TypeError (msg : string)
| AttributeError (msg : string)
| ValueError (msg : string)
| RuntimeError (msg : string).

Inductive result (A : Type) : Type :=
| Ok (a : A)
| Raise (e : exn).
Arguments Ok {A} a.
Arguments Raise {A} e.

#[global] Instance result_ret : MRet result := λ A a, Ok a.
#[global] Instance result_bind : MBind result := λ A B f m,
  match m with
  | Ok a => f a
  | Raise e => Raise e
  end.
#[global] Instance result_fmap : FMap result := λ A B f m,
  match m with
  | Ok a => Ok (f a)
  | Raise e => Raise e
  end.

Definition is_Ok {A} (r : result A) : Prop := ∃ a, r = Ok a.
Definition is_Raise {A} (r : result A) : Prop := ∃ e, r = Raise e.

(** [mapM] for [result], left to right, stopping at the first exception. *)
Fixpoint result_mapM {A B} (f : A → result B) (l : list A) : result (list B) :=
  match l with
  | [] => Ok []
  | x :: l' => y ← f x; ys ← result_mapM f l'; Ok (y :: ys)
  end.

(** ** Values *)

(** What a batch holds under a field name: an integer tensor of rank one or
    two (batch-major), a Python list of rank-one tensors of unequal lengths
    (a field before padding), or a list of strings. *)
Inductive value : Type :=
| VTensor1 (t : list Z)
| VTensor2 (t : list (list Z))
| VTensors (ts : list (list Z))
| VStrs (l : list string).

(** Python's [len]. *)
Definition value_len (v : value) : nat :=
  match v with
  | VTensor1 t => length t
  | VTensor2 t => length t
  | VTensors ts => length ts
  | VStrs l => length l
  end.

(** [d[k]] on a dict. *)
Definition getitem {V} (d : gmap string V) (k : string) : result V :=
  match d !! k with
  | Some v => Ok v
  | None => Raise (KeyError k)
  end.

(** The rank-two integer tensor a model method indexes with; the batches
    the step methods receive come from [prepare_input], whose tensors have
    rank two, and other ranks are outside the model. *)
Definition as_tensor2 (v : value) : result (list (list Z)) :=
  match v with
  | VTensor2 t => Ok t
  | _ => Raise (TypeError "expected a tensor of rank two")
  end.

Definition as_tensor1 (v : value) : result (list Z) :=
  match v with
  | VTensor1 t => Ok t
  | _ => Raise (TypeError "expected a tensor of rank one")
  end.

(** The sequences [pad_sequence] iterates over: the elements of a list of
    tensors, or the rows of a tensor. *)
Definition as_sequences (v : value) : result (list (list Z)) :=
  match v with
  | VTensors ts => Ok ts
  | VTensor2 t => Ok t
  | _ => Raise (TypeError "expected a sequence of tensors")
  end.

(** [v.to(device)]: defined on tensors only. *)
Definition to_device (v : value) : result value :=
  match v with
  | VTensor1 _ | VTensor2 _ => Ok v
  | _ => Raise (AttributeError "'list' object has no attribute 'to'")
  end.

(** What a raw sample holds under a field name. *)
#[warnings="-register-all"]
Inductive pyval : Type :=
| PStr (s : string)
| PInt (z : Z)
| PList (l : list pyval).

(** ** [torch] primitives *)

Definition int64_min : Z := (- 2 ^ 63)%Z.
Definition int64_max : Z := (2 ^ 63 - 1)%Z.

(** Two's-complement wrap-around of [int64] arithmetic. *)
Definition wrap_int64 (z : Z) : Z :=
  ((z + 2 ^ 63) mod 2 ^ 64 - 2 ^ 63)%Z.

(** [torch.nn.utils.rnn.pad_sequence(sequences, batch_first=True,
    padding_value=...)]: every sequence is extended on the right up to the
    longest one; an empty list of sequences is refused. *)
Definition pad_sequence (sequences : list (list Z)) (padding_value : Z)
  : result (list (list Z)) :=
  match sequences with
  | [] => Raise (RuntimeError "received an empty list of sequences")
  | _ =>
      let max_len := max_list (length <$> sequences) in
      Ok ((λ s : list Z, s ++ replicate (max_len - length s) padding_value) <$> sequences)
  end.

(** [t[t == old] = new] on a rank-two tensor. *)
Definition masked_fill_eq (old new : Z) (t : list (list Z)) : list (list Z) :=
  (λ row : list Z, (λ x : Z, if (x =? old)%Z then new else x) <$> row) <$> t.

(** [nn.Embedding.forward] on a rank-one index tensor: row [i] of the
    weight for each index, and no negative indexing. *)
Definition embedding_row {A} (weight : list A) (i : Z) : result A :=
  if (0 <=? i)%Z then
    match weight !! Z.to_nat i with
    | Some row => Ok row
    | None => Raise (IndexError "index out of range in self")
    end
  else Raise (IndexError "index out of range in self").

Definition embedding {A} (weight : list A) (idx : list Z) : result (list A) :=
  result_mapM (embedding_row weight) idx.

(** On a rank-two index tensor. *)
Definition embedding2 {A} (weight : list A) (idx : list (list Z))
  : result (list (list A)) :=
  result_mapM (embedding weight) idx.

(** Broadcasting of one dimension: equal sizes are zipped, a size of one is
    repeated, anything else is a shape error.  Shapes are read off the
    nested lists, so an empty outer dimension hides the inner ones. *)
Definition broadcast_zip {A B C} (f : A → B → result C)
    (a : list A) (b : list B) : result (list C) :=
  if (length a =? length b)%nat then
    result_mapM (λ xy : A * B, f xy.1 xy.2) (zip a b)
  else match a, b with
  | _, [y] => result_mapM (λ x, f x y) a
  | [x], _ => result_mapM (λ y, f x y) b
  | _, _ => Raise (RuntimeError "the sizes of the tensors must match")
  end.

(** [a + b] on tensors of rank three. *)
Definition tensor3_add (a b : list (list (list Q))) : result (list (list (list Q))) :=
  broadcast_zip (broadcast_zip (broadcast_zip (λ x y : Q, Ok (x + y)%Q))) a b.

(** [x.permute(1, 0)] on a tensor of shape [(rows, cols)]. *)
Definition permute_1_0 (rows cols : nat) (x : list (list Q)) : list (list Q) :=
  (λ j : nat, (λ i : nat, nth j (nth i x []) 0%Q) <$> seq 0 rows) <$> seq 0 cols.

(** The multiplier [dropout1d] draws for a channel: Bernoulli([1 - p])
    divided by [1 - p]. *)
Definition dropout_noise (p : Q) (keep : bool) : Q :=
  if keep then (/ (1 - p))%Q else 0%Q.

(** [nn.functional.dropout1d(input, p, training)] on an unbatched input of
    shape [(C, L)]: channel [j] is multiplied as a whole by its noise;
    [keep j] is the Bernoulli draw for channel [j].  Outside training the
    input is returned as it is. *)
Definition dropout1d (input : list (list Q)) (p : Q) (training : bool)
    (keep : nat → bool) : list (list Q) :=
  if training then
    imap (λ (j : nat) (channel : list Q),
            (λ v : Q, (v * dropout_noise p (keep j))%Q) <$> channel) input
  else input.

(** [nn.functional.leaky_relu] with its default negative slope 0.01. *)
Definition leaky_relu (x : Q) : Q :=
  if Qle_bool x 0 then (x * (1 # 100))%Q else x.

(** [np.array(l).reshape((rows, cols))] on a flat list, in row-major
    order. *)
Fixpoint chunks {A} (rows cols : nat) (l : list A) : list (list A) :=
  match rows with
  | O => []
  | S r => take cols l :: chunks r cols (drop cols l)
  end.

Definition np_reshape2 {A} (l : list A) (rows cols : nat) : result (list (list A)) :=
  if (length l =? rows * cols)%nat then Ok (chunks rows cols l)
  else Raise (ValueError "cannot reshape array").

(** ** [numpy] masked updates used by [tokenize] *)

(** [arr[sel] += 1] on an array of Python objects ([None] or an int). *)
Definition np_iadd1_where (sel : list bool) (arr : list (option Z))
  : result (list (option Z)) :=
  if (length sel =? length arr)%nat then
    result_mapM (λ bx : bool * option Z,
      if bx.1 then
        match bx.2 with
        | Some w => Ok (Some (w + 1)%Z)
        | None => Raise (TypeError "unsupported operand type(s) for +: 'NoneType' and 'int'")
        end
      else Ok bx.2) (zip sel arr)
  else Raise (IndexError "boolean index did not match indexed array").

(** [arr[sel] = v]. *)
Definition np_assign_where (sel : list bool) (v : Z) (arr : list (option Z))
  : result (list (option Z)) :=
  if (length sel =? length arr)%nat then
    Ok (zip_with (λ (b : bool) (x : option Z), if b then Some v else x) sel arr)
  else Raise (IndexError "boolean index did not match indexed array").

(** ** [re.search(r"\d+", s).group()] and [int] *)

Definition is_digit (c : Ascii.ascii) : bool :=
  (48 <=? Ascii.nat_of_ascii c)%nat && (Ascii.nat_of_ascii c <=? 57)%nat.

Fixpoint take_digits (s : string) : string :=
  match s with
  | String c s' => if is_digit c then String c (take_digits s') else EmptyString
  | EmptyString => EmptyString
  end.

(** The first maximal run of digits, [None] when there is none. *)
Fixpoint re_search_digits (s : string) : option string :=
  match s with
  | EmptyString => None
  | String c s' => if is_digit c then Some (take_digits s) else re_search_digits s'
  end.

Fixpoint int_of_digits_from (acc : Z) (s : string) : Z :=
  match s with
  | EmptyString => acc
  | String c s' => int_of_digits_from (acc * 10 + (Z.of_nat (Ascii.nat_of_ascii c) - 48))%Z s'
  end.

Definition int_of_digits (s : string) : Z := int_of_digits_from 0 s.

(** ** External collaborators *)

(** A [tokenizers.Encoding]: what the fast tokenizer reports per token.
    A word index is an unsigned integer, [None] where the token belongs to
    no word. *)
Record Encoding : Type := {
  enc_ids : list Z;
  enc_word_ids : list (option N);
  enc_special_tokens_mask : list Z
}.

(** The [BatchEncoding] of one (text, text_target) pair. *)
Record BatchEncoding : Type := {
  be_input_ids : list Z;
  be_attention_mask : list Z;
  be_labels : list Z;
  be_encoding0 : Encoding
}.

(** The tokenizer, a black box: [tok_call text text_target] stands for
    [tokenizer(text=..., text_target=..., truncation=True)] and
    [tok_decode] for decoding one sequence with [skip_special_tokens]. *)
Record T5TokenizerFast : Type := {
  tok_call : string → string → BatchEncoding;
  pad_token_id : Z;
  tok_decode : list Z → string
}.

(** What the fast tokenizer guarantees about an encoding: the input ids are
    those of the first encoding, and its per-token arrays are aligned. *)
Definition encoding_aligned (be : BatchEncoding) : Prop :=
  be_input_ids be = enc_ids (be_encoding0 be)
  ∧ length (enc_word_ids (be_encoding0 be)) = length (enc_ids (be_encoding0 be))
  ∧ length (enc_special_tokens_mask (be_encoding0 be))
    = length (enc_ids (be_encoding0 be)).

(** A task of [src.data.templates]: called with the fields of a sample as
    keyword arguments, it returns (input text, target text) pairs or raises
    when a mandatory field is missing. *)
Definition Task : Type := gmap string pyval → result (list (string * string)).

(** Calling what [tokenize] selected; the evaluation task may be [None]. *)
Definition call_task (task : option Task) (kwargs : gmap string pyval)
  : result (list (string * string)) :=
  match task with
  | Some t => t kwargs
  | None => Raise (TypeError "'NoneType' object is not callable")
  end.

(** [random.choice(seq)], [rnd] being the draw. *)
Definition random_choice {A} (rnd : nat) (l : list A) : result A :=
  match l !! (rnd mod length l)%nat with
  | Some x => Ok x
  | None => Raise (IndexError "Cannot choose from an empty sequence")
  end.

Record GenerationConfig : Type := {
  num_return_sequences : nat;
  max_new_tokens : nat;
  num_beams : nat;
  no_repeat_ngram_size : nat;
  early_stopping : bool
}.

(** [nn.Embedding]. *)
Record Embedding : Type := {
  num_embeddings : nat;
  embedding_dim : nat;
  weight : list (list Q)
}.

Definition Embedding_wf (e : Embedding) : Prop :=
  length (weight e) = num_embeddings e
  ∧ Forall (λ row : list Q, length row = embedding_dim e) (weight e).

(** [nn.Embedding(n, dim)] followed by an initialisation of the weight;
    [init i j] is the value drawn for entry [(i, j)]. *)
Definition Embedding_init (n dim : nat) (init : nat → nat → Q) : Embedding :=
  {| num_embeddings := n;
     embedding_dim := dim;
     weight := (λ i : nat, (λ j : nat, init i j) <$> seq 0 dim) <$> seq 0 n |}.

(** The inherited [T5ForConditionalGeneration], a black box: its token
    embedding table, its forward pass returning the loss, and [generate].
    Both take the training flag of the module. *)
Record T5ForConditionalGeneration : Type := {
  shared : Embedding;
  forward : bool → list (list (list Q)) → list (list Z) → list (list Z) → result Q;
  generate : bool → list (list (list Q)) → list (list Z) → GenerationConfig
             → result (list (list Z))
}.

(** Modelled from the spec: [ExperimentConfig.inject_personalization] of
    [src/__init__.py], a flag enumerating the phases (["train"], ["eval"],
    both or neither) in which personalization is injected; [in] is
    membership. *)
Definition InjectPersonalization : Type := list string.

(** ** [UserEmbeds] *)

Record UserEmbeds : Type := {
  emb_layer : Embedding
}.

(** [UserEmbeds.__init__]: the table has [n_users] rows of [dim_model]
    entries, filled by [xavier_uniform_]. *)
Definition UserEmbeds_init (n_users dim_model : nat) (init : nat → nat → Q) : UserEmbeds :=
  {| emb_layer := Embedding_init n_users dim_model init |}.

Definition dropout_p : Q := 6 # 10.

(** [UserEmbeds.__call__] on a rank-one index tensor. *)
Definition UserEmbeds_call (self : UserEmbeds) (training : bool)
    (keep : nat → bool) (user_idx : list Z) : result (list (list Q)) :=
  x ← embedding (weight (emb_layer self)) user_idx;
  let batch := length user_idx in
  let dim := embedding_dim (emb_layer self) in
  let x := permute_1_0 batch dim x in
  let x := dropout1d x dropout_p training keep in
  let x := permute_1_0 dim batch x in
  Ok ((λ row : list Q, leaky_relu <$> row) <$> x).

(** ** [T5FineTuned] *)

Record T5FineTuned : Type := {
  base : T5ForConditionalGeneration;
  tokenizer : T5TokenizerFast;
  training_tasks : list Task;
  eval_task : option Task;
  n_users : nat;
  user_embeddings : UserEmbeds;
  training : bool
}.

(** [T5FineTuned.__init__]; [d_model] is [config.d_model].  A freshly
    built module is in training mode. *)
Definition T5FineTuned_init (t5 : T5ForConditionalGeneration)
    (tok : T5TokenizerFast) (d_model users : nat) (tasks : list Task)
    (etask : option Task) (init : nat → nat → Q) : T5FineTuned :=
  {| base := t5;
     tokenizer := tok;
     training_tasks := tasks;
     eval_task := etask;
     n_users := users;
     user_embeddings := UserEmbeds_init users d_model init;
     training := true |}.

Definition set_eval_task (self : T5FineTuned) (t : Task) : T5FineTuned :=
  {| base := base self;
     tokenizer := tokenizer self;
     training_tasks := training_tasks self;
     eval_task := Some t;
     n_users := n_users self;
     user_embeddings := user_embeddings self;
     training := training self |}.

(** [train(mode)] and [eval()]: the mode of the module and of its
    submodules; the mode of the task layer, which the methods also switch,
    belongs to the tasks. *)
Definition train (self : T5FineTuned) (mode : bool) : T5FineTuned :=
  {| base := base self;
     tokenizer := tokenizer self;
     training_tasks := training_tasks self;
     eval_task := eval_task self;
     n_users := n_users self;
     user_embeddings := user_embeddings self;
     training := mode |}.


(** The same module with other user-embedding parameters. *)
Definition with_user_embeddings (self : T5FineTuned) (ue : UserEmbeds) : T5FineTuned :=
  {| base := base self;
     tokenizer := tokenizer self;
     training_tasks := training_tasks self;
     eval_task := eval_task self;
     n_users := n_users self;
     user_embeddings := ue;
     training := training self |}.

(** *** [tokenize] *)

(** One element of [encoded_sequence_list]: the tokenizer's fields plus the
    three the loop body adds. *)
Record EncodedSequence : Type := {
  es_input_ids : list Z;
  es_attention_mask : list Z;
  es_labels : list Z;
  es_user_idx : Z;
  es_whole_word_ids : list (option Z);
  es_target_item : pyval
}.

(** The values of the dict [tokenize] returns. *)
Inductive evalue : Type :=
| EInts (l : list Z)
| EWordIds (l : list (option Z))
| EInt (z : Z)
| EPy (v : pyval).

Definition encoded_items (e : EncodedSequence) : gmap string evalue :=
  <["input_ids" := EInts (es_input_ids e)]>
  (<["attention_mask" := EInts (es_attention_mask e)]>
  (<["labels" := EInts (es_labels e)]>
  (<["user_idx" := EInt (es_user_idx e)]>
  (<["whole_word_ids" := EWordIds (es_whole_word_ids e)]>
  (<["target_item" := EPy (es_target_item e)]> ∅))))).

(** [cytoolz.merge_with(list, *dicts)]: under each key, the values of the
    dicts that have it, in order. *)
Definition merge_with_list {V} (dicts : list (gmap string V)) : gmap string (list V) :=
  foldr (λ d acc,
           merge (λ (x : option V) (l : option (list V)),
                    match x with
                    | Some v => Some (v :: default [] l)
                    | None => l
                    end) d acc) ∅ dicts.

(** [{k: v[0] for k, v in sample.items()}]. *)
Definition unbatch (sample : gmap string (list pyval)) : result (gmap string pyval) :=
  if bool_decide (map_Forall (λ (_ : string) (v : list pyval), v ≠ []) sample)
  then Ok (omap head sample)
  else Raise (IndexError "list index out of range").

(** The whole-word ids of one encoding: the word indices of the tokens that
    are not special are shifted up by one, then the special positions are
    overwritten with the pad id. *)
Definition whole_word_ids_of (pad : Z) (enc : Encoding) : result (list (option Z)) :=
  let whole_word_ids := (λ w : option N, Z.of_N <$> w) <$> enc_word_ids enc in
  let special_token_mask := (λ b : Z, negb (b =? 0)%Z) <$> enc_special_tokens_mask enc in
  whole_word_ids ← np_iadd1_where (negb <$> special_token_mask) whole_word_ids;
  np_assign_where special_token_mask pad whole_word_ids.

(** [int(re.search(r"\d+", sample["user_id"]).group())]. *)
Definition parse_user_idx (user_id : pyval) : result Z :=
  match user_id with
  | PStr s =>
      match re_search_digits s with
      | Some digits => Ok (int_of_digits digits)
      | None => Raise (AttributeError "'NoneType' object has no attribute 'group'")
      end
  | _ => Raise (TypeError "expected string or bytes-like object")
  end.

(** The body of the loop over [templates_list]. *)
Definition encode_template (self : T5FineTuned) (sample : gmap string pyval)
    (template : string * string) : result EncodedSequence :=
  let encoded_sequence := tok_call (tokenizer self) template.1 template.2 in
  whole_word_ids ← whole_word_ids_of (pad_token_id (tokenizer self))
                                     (be_encoding0 encoded_sequence);
  user_id ← getitem sample "user_id";
  user_idx ← parse_user_idx user_id;
  target_item ← getitem sample "target_item";
  Ok {| es_input_ids := be_input_ids encoded_sequence;
        es_attention_mask := be_attention_mask encoded_sequence;
        es_labels := be_labels encoded_sequence;
        es_user_idx := user_idx;
        es_whole_word_ids := whole_word_ids;
        es_target_item := target_item |}.

(** [tokenize] up to the end of its loop: [encoded_sequence_list].  [rnd]
    is the draw of [random.choice]. *)
Definition tokenize_encoded (self : T5FineTuned) (rnd : nat)
    (sample : gmap string (list pyval)) : result (list EncodedSequence) :=
  user_ids ← getitem sample "user_id";
  if negb (length user_ids =? 1)%nat
  then Raise (AssertionError "set batch_size to map fn to 1")
  else
    sample ← unbatch sample;
    task ← (if training self
            then Some <$> random_choice rnd (training_tasks self)
            else Ok (eval_task self));
    templates_list ← call_task task sample;
    result_mapM (encode_template self sample) templates_list.

Definition tokenize (self : T5FineTuned) (rnd : nat)
    (sample : gmap string (list pyval)) : result (gmap string (list evalue)) :=
  encoded_sequence_list ← tokenize_encoded self rnd sample;
  Ok (merge_with_list (encoded_items <$> encoded_sequence_list)).

(** *** [prepare_input] *)

Definition ignore_index : Z := (-100)%Z.

Definition padded_field (self : T5FineTuned) (batch : gmap string value)
    (field : string) : result (list (list Z)) :=
  v ← getitem batch field;
  sequences ← as_sequences v;
  pad_sequence sequences (pad_token_id (tokenizer self)).

Definition prepare_input (self : T5FineTuned) (batch : gmap string value)
  : result (gmap string value) :=
  input_ids ← padded_field self batch "input_ids";
  attention_mask ← padded_field self batch "attention_mask";
  whole_word_ids ← padded_field self batch "whole_word_ids";
  user_idx ← getitem batch "user_idx" ≫= to_device;
  let input_dict : gmap string value :=
    <["whole_word_ids" := VTensor2 whole_word_ids]>
    (<["attention_mask" := VTensor2 attention_mask]>
    (<["input_ids" := VTensor2 input_ids]>
    (<["user_idx" := user_idx]> ∅))) in
  input_dict ←
    match batch !! "labels" with
    | Some _ =>
        lm_labels ← padded_field self batch "labels";
        let lm_labels :=
          masked_fill_eq (pad_token_id (tokenizer self)) ignore_index lm_labels in
        Ok (<["labels" := VTensor2 lm_labels]> input_dict)
    | None => Ok input_dict
    end;
  if negb (training self) then
    target_item ← getitem batch "target_item";
    Ok (<["target_item" := target_item]> input_dict)
  else Ok input_dict.

(** *** [_inject_personalization], [train_step], [valid_step] *)

Definition _inject_personalization (self : T5FineTuned) (keep : nat → bool)
    (token_inputs_embeds : list (list (list Q))) (user_idxs : list Z)
  : result (list (list (list Q))) :=
  user_embeds ← UserEmbeds_call (user_embeddings self) (training self) keep
                  ((λ u : Z, wrap_int64 (u - 1)) <$> user_idxs);
  let user_embeds := (λ row : list Q, [row]) <$> user_embeds in
  tensor3_add token_inputs_embeds user_embeds.

(** The embedding step shared by the two step methods. *)
Definition embed_inputs (cfg : InjectPersonalization) (phase : string)
    (self : T5FineTuned) (keep : nat → bool) (batch : gmap string value)
  : result (list (list (list Q))) :=
  input_ids ← getitem batch "input_ids" ≫= as_tensor2;
  inputs_embeds ← embedding2 (weight (shared (base self))) input_ids;
  if bool_decide (phase ∈ cfg) then
    user_idx ← getitem batch "user_idx" ≫= as_tensor1;
    _inject_personalization self keep inputs_embeds user_idx
  else Ok inputs_embeds.

Definition train_step (cfg : InjectPersonalization) (self : T5FineTuned)
    (keep : nat → bool) (batch : gmap string value) : result Q :=
  inputs_embeds ← embed_inputs cfg "train" self keep batch;
  attention_mask ← getitem batch "attention_mask" ≫= as_tensor2;
  labels ← getitem batch "labels" ≫= as_tensor2;
  forward (base self) (training self) inputs_embeds attention_mask labels.

Definition valid_generation_config : GenerationConfig :=
  {| num_return_sequences := 10;
     max_new_tokens := 50;
     num_beams := 30;
     no_repeat_ngram_size := 0;
     early_stopping := true |}.

Definition no_eval_task_message : string :=
  "Model can't perform valid_step since no eval_task is set! Pass it when initializing the model or with `set_eval_task()`".

(** What [valid_step] does once the target items are popped. *)
Definition valid_step_body (cfg : InjectPersonalization) (self : T5FineTuned)
    (keep : nat → bool) (batch : gmap string value) (target_text : value)
  : result (list (list string) * value * Q) :=
  inputs_embeds ← embed_inputs cfg "eval" self keep batch;
  attention_mask ← getitem batch "attention_mask" ≫= as_tensor2;
  labels ← getitem batch "labels" ≫= as_tensor2;
  val_loss ← forward (base self) (training self) inputs_embeds attention_mask labels;
  attention_mask ← getitem batch "attention_mask" ≫= as_tensor2;
  beam_outputs ← generate (base self) (training self) inputs_embeds attention_mask
                   valid_generation_config;
  let generated_sents := tok_decode (tokenizer self) <$> beam_outputs in
  mapped_predictions ← np_reshape2 generated_sents (value_len target_text)
                          (num_return_sequences valid_generation_config);
  Ok (mapped_predictions, target_text, val_loss).

(** [valid_step] returns its result (or the exception) together with the
    caller's batch as the call leaves it.  The method runs under
    [torch.no_grad()]; gradients are not part of the model. *)
Definition valid_step (cfg : InjectPersonalization) (self : T5FineTuned)
    (keep : nat → bool) (batch : gmap string value)
  : result (list (list string) * value * Q) * gmap string value :=
  match eval_task self with
  | None => (Raise (ValueError no_eval_task_message), batch)
  | Some _ =>
      match batch !! "target_item" with
      | None => (Raise (KeyError "target_item"), batch)
      | Some target_text =>
          let batch := delete "target_item" batch in
          (valid_step_body cfg self keep batch target_text, batch)
      end
  end.

(** ** Spec-side notions *)

(** Stripping the pad positions of a padded row, as the round-trip property
    of the specification words it. *)
Definition strip_pad (pad : Z) (row : list Z) : list Z :=
  filter (λ x : Z, x ≠ pad) row.

(** A batch [prepare_input] accepts: the padded fields are non-empty
    sequences of tensors, the user indices are a tensor, and outside
    training the target items are there. *)
Definition nonempty_sequences (v : option value) : bool :=
  match v with
  | Some (VTensors (_ :: _)) | Some (VTensor2 (_ :: _)) => true
  | _ => false
  end.

Definition is_tensor (v : option value) : bool :=
  match v with
  | Some (VTensor1 _) | Some (VTensor2 _) => true
  | _ => false
  end.

Definition batch_ready (self : T5FineTuned) (batch : gmap string value) : bool :=
  nonempty_sequences (batch !! "input_ids")
  && nonempty_sequences (batch !! "attention_mask")
  && nonempty_sequences (batch !! "whole_word_ids")
  && is_tensor (batch !! "user_idx")
  && match batch !! "labels" with
     | None => true
     | v => nonempty_sequences v
     end
  && (training self || bool_decide (is_Some (batch !! "target_item"))).

(** Entry [(b, s, d)] of a tensor of rank three. *)
Definition entry3 (t : list (list (list Q))) (b s d : nat) : option Q :=
  t !! b ≫= λ sample : list (list Q), sample !! s ≫= λ v : list Q, v !! d.

(** The Bernoulli draws of [dropout1d] over [n] channels, as a finite
    distribution: each channel is kept with probability [q], independently
    of the others.  A mask lists the draws, [true] for a kept channel. *)
Definition extend_masks (q : Q) (dist : list (list bool * Q)) : list (list bool * Q) :=
  flat_map (λ mw : list bool * Q,
              [(true :: mw.1, (q * mw.2)%Q); (false :: mw.1, ((1 - q) * mw.2)%Q)]) dist.

Fixpoint bernoulli_masks (q : Q) (n : nat) : list (list bool * Q) :=
  match n with
  | O => [([], 1%Q)]
  | S n' => extend_masks q (bernoulli_masks q n')
  end.

Fixpoint probability (event : list bool → bool) (dist : list (list bool * Q)) : Q :=
  match dist with
  | [] => 0%Q
  | mw :: dist' => ((if event mw.1 then mw.2 else 0) + probability event dist')%Q
  end.

(** The draws of a mask as [dropout1d] consumes them. *)
Definition keep_of_mask (mask : list bool) : nat → bool :=
  λ j, default true (mask !! j).

Definition dropped (j : nat) (mask : list bool) : bool :=
  bool_decide (mask !! j = Some false).

(** ** A small concrete instance

    Three users, a vocabulary of four tokens, embeddings of dimension two;
    the tokenizer, the transformer and the task are toy stand-ins with the
    interfaces of the real ones. *)
Module Demo.

Definition encoding : Encoding :=
  {| enc_ids := [2; 3; 1]%Z;
     enc_word_ids := [Some 0%N; Some 1%N; None];
     enc_special_tokens_mask := [0; 0; 1]%Z |}.

Definition tok : T5TokenizerFast :=
  {| tok_call := λ _ _,
       {| be_input_ids := [2; 3; 1]%Z;
          be_attention_mask := [1; 1; 1]%Z;
          be_labels := [3; 1]%Z;
          be_encoding0 := encoding |};
     pad_token_id := 0%Z;
     tok_decode := λ ids, match ids with
                          | [] => "item_0"
                          | k :: _ => if (k <? 10)%Z then "item_42" else "item_7"
                          end |}.

Definition t5 : T5ForConditionalGeneration :=
  {| shared := Embedding_init 4 2 (λ i j, inject_Z (Z.of_nat (i + j)));
     forward := λ _ _ _ _, Ok (1 # 2);
     generate := λ _ inputs_embeds _ cfg,
       Ok ((λ k : nat, [Z.of_nat k])
           <$> seq 0 (length inputs_embeds * num_return_sequences cfg)) |}.

Definition task : Task := λ _, Ok [("what should user_3 buy next?", "item_42")].

Definition init : nat → nat → Q := λ i j, inject_Z (Z.of_nat (10 * i + j) - 5).

Definition model (etask : option Task) (mode : bool) : T5FineTuned :=
  train (T5FineTuned_init t5 tok 2 3 [task] etask init) mode.

Definition sample : gmap string (list pyval) :=
  <["user_id" := [PStr "u_3"]]> (<["target_item" := [PStr "item_42"]]> ∅).

(** A batch as the collator hands it to [prepare_input]. *)
Definition raw_batch : gmap string value :=
  <["input_ids" := VTensors [[2; 3; 1]; [3; 1]]%Z]>
  (<["attention_mask" := VTensors [[1; 1; 1]; [1; 1]]%Z]>
  (<["whole_word_ids" := VTensors [[1; 2; 0]; [1; 0]]%Z]>
  (<["labels" := VTensors [[3; 1]; [2; 0; 1]]%Z]>
  (<["user_idx" := VTensor1 [3; 1]%Z]>
  (<["target_item" := VStrs ["item_42"; "item_7"]]> ∅))))).

(** The same batch after [prepare_input]. *)
Definition batch : gmap string value :=
  <["input_ids" := VTensor2 [[2; 3; 1]; [3; 1; 0]]%Z]>
  (<["attention_mask" := VTensor2 [[1; 1; 1]; [1; 1; 0]]%Z]>
  (<["whole_word_ids" := VTensor2 [[1; 2; 0]; [1; 0; 0]]%Z]>
  (<["labels" := VTensor2 [[3; 1; -100]; [2; -100; 1]]%Z]>
  (<["user_idx" := VTensor1 [3; 1]%Z]>
  (<["target_item" := VStrs ["item_42"; "item_7"]]> ∅))))).

(** What the embedding step of [valid_step] computes on it, with
    personalization injected and every channel kept. *)
Definition inputs_embeds : list (list (list Q)) :=
  Eval vm_compute in
    match embed_inputs ["eval"] "eval" (model (Some task) false) (λ _, true)
            (delete "target_item" batch) with
    | Ok e => e
    | Raise _ => []
    end.

End Demo.

(** ** Further notions for the properties of the methods *)

(** The keys of the dict [tokenize] builds for one template. *)
Definition encoded_keys : list string :=
  ["input_ids"; "attention_mask"; "labels"; "user_idx"; "whole_word_ids"; "target_item"].

Fixpoint string_forallb (p : Ascii.ascii → bool) (s : string) : bool :=
  match s with
  | EmptyString => true
  | String c s' => p c && string_forallb p s'
  end.


(** A token id the shared embedding table has a row for. *)
Definition in_vocabulary (self : T5FineTuned) (i : Z) : Prop :=
  (0 ≤ i < Z.of_nat (length (weight (shared (base self)))))%Z.

(** A user index [_inject_personalization] has a row for, as an [int64]. *)
Definition valid_user_idx (self : T5FineTuned) (u : Z) : Prop :=
  (1 ≤ u ≤ Z.of_nat (n_users self))%Z.

(** More stand-ins: a task with a mandatory field, and a transformer whose
    [generate] returns one sequence per input whatever it is asked. *)
Module DemoMore.

Definition strict_task : Task := λ kwargs,
  match kwargs !! "history" with
  | Some _ => Ok [("what should the user buy next?", "item_42");
                  ("recommend an item", "item_42")]
  | None => Raise (AssertionError "history is a mandatory field")
  end.

Definition silent_task : Task := λ _, Ok [].

Definition t5_short : T5ForConditionalGeneration :=
  {| shared := shared Demo.t5;
     forward := forward Demo.t5;
     generate := λ _ inputs_embeds _ _,
       Ok ((λ k : nat, [Z.of_nat k]) <$> seq 0 (length inputs_embeds)) |}.

Definition short_model : T5FineTuned :=
  train (T5FineTuned_init t5_short Demo.tok 2 3 [Demo.task] (Some Demo.task) Demo.init)
        false.

Definition sample_with_history : gmap string (list pyval) :=
  <["history" := [PList [PStr "item_1"; PStr "item_9"]]]> Demo.sample.

End DemoMore.

(** * Properties *)

(** ** The model on small inputs *)

Example pad_sequence_demo :
  pad_sequence [[2; 3; 1]; [3; 1]]%Z 0 = Ok [[2; 3; 1]; [3; 1; 0]]%Z.
Proof. reflexivity. Qed.

Example pad_sequence_empty : is_Raise (pad_sequence [] 0).
Proof. by eexists. Qed.

Example np_reshape2_demo :
  np_reshape2 ["a"; "b"; "c"; "d"; "e"; "f"] 2 3 = Ok [["a"; "b"; "c"]; ["d"; "e"; "f"]]
  ∧ is_Raise (np_reshape2 ["a"; "b"; "c"] 2 2).
Proof. split; [reflexivity|by eexists]. Qed.

Example parse_user_idx_demo :
  parse_user_idx (PStr "u_3") = Ok 3%Z
  ∧ parse_user_idx (PStr "user12_b7") = Ok 12%Z
  ∧ is_Raise (parse_user_idx (PStr "anonymous")).
Proof. repeat split; try reflexivity. by eexists. Qed.

Example wrap_int64_demo :
  wrap_int64 (5 - 1) = 4%Z ∧ wrap_int64 (int64_min - 1) = int64_max.
Proof. split; reflexivity. Qed.

Example whole_word_ids_demo :
  whole_word_ids_of 0 Demo.encoding = Ok [Some 1; Some 2; Some 0]%Z
  ∧ is_Raise (whole_word_ids_of 0
       {| enc_ids := [5; 1]%Z;
          enc_word_ids := [None; None];
          enc_special_tokens_mask := [0; 1]%Z |}).
Proof. split; [reflexivity|by eexists]. Qed.

(** One sample, one template: every field of the returned dict is a list
    of one element. *)
Example tokenize_demo :
  (d ← tokenize (Demo.model None true) 0 Demo.sample;
   Ok (d !! "input_ids", d !! "labels", d !! "whole_word_ids",
       d !! "user_idx", d !! "target_item"))
  = Ok (Some [EInts [2; 3; 1]%Z], Some [EInts [3; 1]%Z],
        Some [EWordIds [Some 1; Some 2; Some 0]%Z],
        Some [EInt 3], Some [EPy (PStr "item_42")]).
Proof. vm_compute. reflexivity. Qed.

Example prepare_input_demo :
  prepare_input (Demo.model (Some Demo.task) false) Demo.raw_batch = Ok Demo.batch.
Proof. vm_compute. reflexivity. Qed.

(** User 1 of the demonstration table has negative entries: kept channels
    are scaled by 5/2 in training, and the negative slope is 1/100. *)
Example UserEmbeds_call_demo :
  UserEmbeds_call (UserEmbeds_init 3 2 Demo.init) false (λ _, true) [0]%Z
  = Ok [[(-5) * (1 # 100); (-4) * (1 # 100)]]%Q
  ∧ UserEmbeds_call (UserEmbeds_init 3 2 Demo.init) true (λ _, true) [2]%Z
    = Ok [[15 * / (1 - (6 # 10)); 16 * / (1 - (6 # 10))]]%Q
  ∧ is_Raise (UserEmbeds_call (UserEmbeds_init 3 2 Demo.init) false (λ _, true) [3]%Z)
  ∧ is_Raise (UserEmbeds_call (UserEmbeds_init 3 2 Demo.init) false (λ _, true) [-1]%Z).
Proof. repeat split; try reflexivity; by eexists. Qed.

(** ** The [result] monad *)

Lemma bind_Ok {A B} (m : result A) (f : A → result B) (b : B) :
  m ≫= f = Ok b → ∃ a, m = Ok a ∧ f a = Ok b.
Proof. destruct m as [a|e]; simpl; [eauto | discriminate]. Qed.

(** Inverts a successful chain of binds, one computation at a time. *)
Ltac bind_inv H :=
  let a := fresh "a" in
  let Ha := fresh "H" a in
  apply bind_Ok in H as (a & Ha & H).

Lemma result_mapM_length {A B} (f : A → result B) (l : list A) (l' : list B) :
  result_mapM f l = Ok l' → length l' = length l.
Proof.
  revert l'. induction l as [|x l IH]; intros l' H; simpl in H.
  - by inversion H.
  - apply bind_Ok in H as (y & _ & H). apply bind_Ok in H as (ys & Hys & H).
    inversion H; subst. simpl. f_equal. by apply IH.
Qed.

Lemma result_mapM_lookup {A B} (f : A → result B) (l : list A) (l' : list B)
    (i : nat) (x : A) :
  result_mapM f l = Ok l' → l !! i = Some x →
  ∃ y, l' !! i = Some y ∧ f x = Ok y.
Proof.
  revert l' i. induction l as [|x0 l IH]; intros l' i H Hi; [done|].
  simpl in H. apply bind_Ok in H as (y & Hy & H).
  apply bind_Ok in H as (ys & Hys & H). inversion H; subst.
  destruct i as [|i]; simpl in *.
  - inversion Hi; subst. eauto.
  - eauto.
Qed.

Lemma result_mapM_Ok {A B} (f : A → result B) (g : A → B) (l : list A) :
  (∀ x, x ∈ l → f x = Ok (g x)) → result_mapM f l = Ok (g <$> l).
Proof.
  induction l as [|x l IH]; intros H; [done|].
  simpl. rewrite (H x) by left. simpl.
  rewrite IH; [done|]. intros y Hy. apply H. by right.
Qed.

(** ** [pad_sequence] *)

Lemma pad_sequence_Ok (sequences : list (list Z)) (pad : Z) :
  sequences ≠ [] →
  pad_sequence sequences pad
  = Ok ((λ s : list Z,
           s ++ replicate (max_list (length <$> sequences) - length s) pad)
        <$> sequences).
Proof. by destruct sequences. Qed.

Lemma pad_sequence_inv (sequences padded : list (list Z)) (pad : Z) :
  pad_sequence sequences pad = Ok padded →
  padded = (λ s : list Z,
              s ++ replicate (max_list (length <$> sequences) - length s) pad)
           <$> sequences.
Proof. destruct sequences; [done|]. by inversion 1. Qed.

Lemma length_le_max_list (sequences : list (list Z)) (s : list Z) :
  s ∈ sequences → (length s ≤ max_list (length <$> sequences))%nat.
Proof.
  intros Hs. apply max_list_elem_of_le. apply list_elem_of_fmap. eauto.
Qed.

Lemma strip_pad_padded (pad : Z) (s : list Z) (k : nat) :
  pad ∉ s → strip_pad pad (s ++ replicate k pad) = s.
Proof.
  intros Hs. unfold strip_pad. rewrite filter_app.
  assert (filter (λ x : Z, x ≠ pad) (replicate k pad) = []) as ->.
  { induction k as [|k IH]; [done|]. simpl.
    rewrite filter_cons_False by (intros H; by apply H). done. }
  rewrite app_nil_r.
  induction s as [|x s IH]; [done|].
  apply not_elem_of_cons in Hs as [Hx Hs].
  rewrite filter_cons_True by congruence. f_equal. by apply IH.
Qed.

Lemma masked_fill_eq_lookup (old new : Z) (t : list (list Z)) (i j : nat) (x : Z) :
  t !! i ≫= (.!! j) = Some x →
  masked_fill_eq old new t !! i ≫= (.!! j)
  = Some (if (x =? old)%Z then new else x).
Proof.
  unfold masked_fill_eq. rewrite list_lookup_fmap.
  destruct (t !! i) as [row|]; [|done]. simpl.
  rewrite list_lookup_fmap. intros ->. done.
Qed.

Lemma masked_fill_eq_absent (old new : Z) (t : list (list Z)) (row : list Z) :
  old ≠ new → row ∈ masked_fill_eq old new t → old ∉ row.
Proof.
  intros Hne Hrow Hin. unfold masked_fill_eq in Hrow.
  apply list_elem_of_fmap in Hrow as (r & -> & _).
  apply list_elem_of_fmap in Hin as (x & Hx & _).
  destruct (Z.eqb_spec x old); congruence.
Qed.

(** ** [prepare_input] *)

Lemma padded_field_inv (self : T5FineTuned) (batch : gmap string value)
    (field : string) (padded : list (list Z)) :
  padded_field self batch field = Ok padded →
  ∃ v sequences, batch !! field = Some v ∧ as_sequences v = Ok sequences
    ∧ pad_sequence sequences (pad_token_id (tokenizer self)) = Ok padded.
Proof.
  unfold padded_field, getitem. intros H.
  destruct (batch !! field) as [v|]; [|done]. simpl in H.
  apply bind_Ok in H as (sequences & Hs & H). eauto.
Qed.

Lemma padded_field_Ok (self : T5FineTuned) (batch : gmap string value)
    (field : string) :
  nonempty_sequences (batch !! field) = true →
  is_Ok (padded_field self batch field).
Proof.
  unfold padded_field, getitem, is_Ok.
  destruct (batch !! field) as [[| [|s t] | [|s t] |]|]; try done; simpl; eauto.
Qed.

(** What a successful [prepare_input] returns under ["input_ids"] and
    ["labels"]. *)
Lemma prepare_input_inv (self : T5FineTuned) (batch input_dict : gmap string value) :
  prepare_input self batch = Ok input_dict →
  (∃ input_ids, padded_field self batch "input_ids" = Ok input_ids
      ∧ input_dict !! "input_ids" = Some (VTensor2 input_ids))
  ∧ (∀ v, batch !! "labels" = Some v →
      ∃ lm_labels, padded_field self batch "labels" = Ok lm_labels
        ∧ input_dict !! "labels"
          = Some (VTensor2 (masked_fill_eq (pad_token_id (tokenizer self))
                                           ignore_index lm_labels))).
Proof.
  unfold prepare_input. intros H.
  apply bind_Ok in H as (input_ids & Hids & H).
  apply bind_Ok in H as (attention_mask & Ham & H).
  apply bind_Ok in H as (whole_word_ids & Hww & H).
  apply bind_Ok in H as (user_idx & Hu & H).
  apply bind_Ok in H as (d & Hd & H).
  assert (input_dict !! "input_ids" = d !! "input_ids"
          ∧ input_dict !! "labels" = d !! "labels") as [E1 E2].
  { destruct (negb (training self)); [|by inversion H].
    apply bind_Ok in H as (t & _ & H). inversion H; subst.
    by rewrite !lookup_insert_ne. }
  rewrite E1, E2. clear H E1 E2.
  destruct (batch !! "labels") as [lv|] eqn:Hl.
  - apply bind_Ok in Hd as (lm & Hlm & Hd). inversion Hd; subst. split.
    + exists input_ids. split; [done|]. by simplify_map_eq.
    + intros v _. exists lm. split; [done|]. by simplify_map_eq.
  - inversion Hd; subst. split; [|done].
    exists input_ids. split; [done|]. by simplify_map_eq.
Qed.

Lemma prepare_input_Ok (self : T5FineTuned) (batch : gmap string value) :
  batch_ready self batch = true → is_Ok (prepare_input self batch).
Proof.
  unfold batch_ready. rewrite !andb_true_iff.
  intros [[[[[H1 H2] H3] H4] H5] H6].
  unfold prepare_input.
  destruct (padded_field_Ok self batch _ H1) as [x1 ->].
  destruct (padded_field_Ok self batch _ H2) as [x2 ->].
  destruct (padded_field_Ok self batch _ H3) as [x3 ->]. simpl.
  assert (∃ u, getitem batch "user_idx" ≫= to_device = Ok u) as [u ->].
  { unfold getitem. destruct (batch !! "user_idx") as [[]|]; try done; simpl; eauto. }
  simpl.
  assert (∃ d : gmap string value, ∀ k : gmap string value → result (gmap string value),
    (match batch !! "labels" with
     | Some _ =>
         padded_field self batch "labels" ≫= λ lm_labels,
         Ok (<["labels" := VTensor2 (masked_fill_eq (pad_token_id (tokenizer self))
                                       ignore_index lm_labels)]>
             (<["whole_word_ids" := VTensor2 x3]>
              (<["attention_mask" := VTensor2 x2]>
               (<["input_ids" := VTensor2 x1]> (<["user_idx" := u]> ∅)))))
     | None => Ok (<["whole_word_ids" := VTensor2 x3]>
              (<["attention_mask" := VTensor2 x2]>
               (<["input_ids" := VTensor2 x1]> (<["user_idx" := u]> ∅))))
     end) ≫= k = k d) as [d ->].
  { destruct (batch !! "labels") as [lv|] eqn:Hl; [|by eexists].
    destruct (padded_field_Ok self batch "labels") as [lm ->]; [by rewrite Hl|].
    by eexists. }
  destruct (training self); simpl; [by eexists|].
  apply bool_decide_eq_true in H6 as [t Ht].
  unfold getitem. rewrite Ht. simpl. by eexists.
Qed.

(** C4. When the batch has labels, [prepare_input] returns (on every batch
    it accepts) a label tensor that is the pad-padded label sequences with
    every entry equal to the pad id replaced by the ignore-in-loss value
    -100; the pad id, a vocabulary index and so not negative, occurs at no
    position of the returned label tensor. *)
Theorem prepare_input_labels_never_pad (self : T5FineTuned)
    (batch : gmap string value) (labels : value) :
  (0 ≤ pad_token_id (tokenizer self))%Z →
  batch !! "labels" = Some labels →
  (batch_ready self batch = true → is_Ok (prepare_input self batch))
  ∧ ∀ input_dict, prepare_input self batch = Ok input_dict →
      ∃ sequences padded lm_labels,
        as_sequences labels = Ok sequences
        ∧ pad_sequence sequences (pad_token_id (tokenizer self)) = Ok padded
        ∧ input_dict !! "labels" = Some (VTensor2 lm_labels)
        ∧ length lm_labels = length sequences
        ∧ (∀ i j x, padded !! i ≫= (.!! j) = Some x →
             lm_labels !! i ≫= (.!! j)
             = Some (if (x =? pad_token_id (tokenizer self))%Z then (-100)%Z else x))
        ∧ ∀ row, row ∈ lm_labels → pad_token_id (tokenizer self) ∉ row.
Proof.
  intros Hpad Hlabels. split; [apply prepare_input_Ok|].
  intros input_dict H.
  apply prepare_input_inv in H as [_ H].
  destruct (H _ Hlabels) as (lm & Hlm & Hd).
  apply padded_field_inv in Hlm as (v & sequences & Hv & Hs & Hp).
  assert (v = labels) as -> by congruence.
  exists sequences, lm, (masked_fill_eq (pad_token_id (tokenizer self)) ignore_index lm).
  repeat split; try done.
  - unfold masked_fill_eq. rewrite length_fmap.
    apply pad_sequence_inv in Hp as ->. by rewrite length_fmap.
  - intros i j x Hx. by apply masked_fill_eq_lookup.
  - intros row. apply masked_fill_eq_absent. unfold ignore_index. lia.
Qed.

Lemma prepare_input_labels_never_pad_witness :
  (0 ≤ pad_token_id (tokenizer (Demo.model (Some Demo.task) false)))%Z
  ∧ Demo.raw_batch !! "labels" = Some (VTensors [[3; 1]; [2; 0; 1]]%Z)
  ∧ ∃ input_dict lm_labels,
      prepare_input (Demo.model (Some Demo.task) false) Demo.raw_batch = Ok input_dict
      ∧ input_dict !! "labels" = Some (VTensor2 lm_labels)
      ∧ ∀ row, row ∈ lm_labels → 0%Z ∉ row.
Proof.
  assert (0 ≤ pad_token_id (tokenizer (Demo.model (Some Demo.task) false)))%Z
    as H0 by (simpl; lia).
  assert (Demo.raw_batch !! "labels" = Some (VTensors [[3; 1]; [2; 0; 1]]%Z))
    as H1 by reflexivity.
  split; [exact H0|]. split; [exact H1|].
  destruct (prepare_input_labels_never_pad _ _ _ H0 H1) as [Hok Hinv].
  destruct Hok as [input_dict Hd]; [reflexivity|].
  destruct (Hinv _ Hd) as (sequences & padded & lm & _ & _ & Hlm & _ & _ & Hrow).
  exists input_dict, lm. repeat split; [exact Hd | exact Hlm | exact Hrow].
Defined.

(** C9. For every sample of a batch whose unpadded input-token sequence has
    no pad-id token, padding the batch's [input_ids] up to the longest
    sequence with the pad id and then stripping all pad positions gives
    back the unpadded sequence. *)
Theorem pad_then_strip_roundtrip (self : T5FineTuned)
    (batch : gmap string value) (v : value) :
  batch !! "input_ids" = Some v →
  (batch_ready self batch = true → is_Ok (prepare_input self batch))
  ∧ ∀ input_dict, prepare_input self batch = Ok input_dict →
      ∃ sequences padded,
        as_sequences v = Ok sequences
        ∧ pad_sequence sequences (pad_token_id (tokenizer self)) = Ok padded
        ∧ input_dict !! "input_ids" = Some (VTensor2 padded)
        ∧ length padded = length sequences
        ∧ (∀ row, row ∈ padded → length row = max_list (length <$> sequences))
        ∧ ∀ i s, sequences !! i = Some s →
            pad_token_id (tokenizer self) ∉ s →
            strip_pad (pad_token_id (tokenizer self)) <$> padded !! i = Some s.
Proof.
  intros Hv. split; [apply prepare_input_Ok|].
  intros input_dict H.
  apply prepare_input_inv in H as [(padded & Hp & Hd) _].
  apply padded_field_inv in Hp as (v' & sequences & Hv' & Hs & Hp).
  assert (v' = v) as -> by congruence.
  exists sequences, padded. repeat split; try done.
  - apply pad_sequence_inv in Hp as ->. by rewrite length_fmap.
  - intros row Hrow. apply pad_sequence_inv in Hp as ->.
    apply list_elem_of_fmap in Hrow as (s & -> & Hin).
    rewrite length_app, length_replicate.
    pose proof (length_le_max_list _ _ Hin). lia.
  - intros i s Hi Hs'. apply pad_sequence_inv in Hp as ->.
    rewrite list_lookup_fmap, Hi. simpl. f_equal.
    by apply strip_pad_padded.
Qed.

Lemma pad_then_strip_roundtrip_witness :
  Demo.raw_batch !! "input_ids" = Some (VTensors [[2; 3; 1]; [3; 1]]%Z)
  ∧ ∃ input_dict padded,
      prepare_input (Demo.model (Some Demo.task) false) Demo.raw_batch = Ok input_dict
      ∧ input_dict !! "input_ids" = Some (VTensor2 padded)
      ∧ strip_pad 0 <$> padded !! 1%nat = Some [3; 1]%Z.
Proof.
  assert (Demo.raw_batch !! "input_ids" = Some (VTensors [[2; 3; 1]; [3; 1]]%Z))
    as H1 by reflexivity.
  split; [exact H1|].
  destruct (pad_then_strip_roundtrip (Demo.model (Some Demo.task) false) _ _ H1)
    as [Hok Hinv].
  destruct Hok as [input_dict Hd]; [reflexivity|].
  destruct (Hinv _ Hd) as (sequences & padded & Hs & _ & Hp & _ & _ & Hstrip).
  exists input_dict, padded. repeat split; [exact Hd | exact Hp |].
  inversion Hs; subst sequences.
  apply (Hstrip 1%nat [3; 1]%Z); [reflexivity|].
  simpl. intros Hin. repeat (apply elem_of_cons in Hin as [Hin|Hin]; [discriminate|]).
  by apply elem_of_nil in Hin.
Defined.

(** ** [tokenize] *)

Lemma np_iadd1_where_inv (sel : list bool) (arr arr' : list (option Z)) :
  np_iadd1_where sel arr = Ok arr' →
  length sel = length arr ∧ length arr' = length arr
  ∧ ∀ (i : nat) (b : bool), sel !! i = Some b →
      if b then ∃ w, arr !! i = Some (Some w) ∧ arr' !! i = Some (Some (w + 1)%Z)
      else arr' !! i = arr !! i.
Proof.
  unfold np_iadd1_where. destruct (Nat.eqb_spec (length sel) (length arr)) as [Hlen|]; [|done].
  intros H. split; [done|]. split.
  - apply result_mapM_length in H. rewrite H, length_zip. lia.
  - intros i b Hb.
    destruct (lookup_lt_is_Some_2 arr i) as [x Hx].
    { rewrite <- Hlen. by eapply lookup_lt_Some. }
    destruct (result_mapM_lookup _ _ _ i (b, x) H) as (y & Hy & Hf).
    { rewrite lookup_zip_with, Hb. simpl. by rewrite Hx. }
    simpl in Hf. destruct b.
    + destruct x as [w|]; [|done]. inversion Hf; subst. eauto.
    + inversion Hf; subst. congruence.
Qed.

Lemma np_assign_where_inv (sel : list bool) (v : Z) (arr arr' : list (option Z)) :
  np_assign_where sel v arr = Ok arr' →
  length arr' = length arr
  ∧ ∀ (i : nat) (b : bool), sel !! i = Some b →
      if b then arr' !! i = Some (Some v) else arr' !! i = arr !! i.
Proof.
  unfold np_assign_where. destruct (Nat.eqb_spec (length sel) (length arr)) as [Hlen|]; [|done].
  intros H. inversion H; subst. split.
  - rewrite length_zip_with. lia.
  - intros i b Hb. rewrite lookup_zip_with, Hb. simpl.
    destruct (lookup_lt_is_Some_2 arr i) as [x Hx].
    { rewrite <- Hlen. by eapply lookup_lt_Some. }
    rewrite Hx. simpl. by destruct b.
Qed.

(** The whole-word ids of an encoding, position by position. *)
Lemma whole_word_ids_of_inv (pad : Z) (enc : Encoding) (wwi : list (option Z)) :
  whole_word_ids_of pad enc = Ok wwi →
  length wwi = length (enc_word_ids enc)
  ∧ length (enc_special_tokens_mask enc) = length (enc_word_ids enc)
  ∧ ∀ (i : nat) (m : Z), enc_special_tokens_mask enc !! i = Some m →
      if (m =? 0)%Z
      then ∃ w : N, enc_word_ids enc !! i = Some (Some w)
                    ∧ wwi !! i = Some (Some (Z.of_N w + 1)%Z)
      else wwi !! i = Some (Some pad).
Proof.
  unfold whole_word_ids_of. intros H.
  apply bind_Ok in H as (arr1 & H1 & H2).
  apply np_iadd1_where_inv in H1 as (Hl0 & Hl1 & H1).
  apply np_assign_where_inv in H2 as (Hl2 & H2).
  rewrite !length_fmap in Hl0. rewrite length_fmap in Hl1.
  split; [congruence|]. split; [done|].
  intros i m Hm.
  specialize (H1 i (negb (negb (m =? 0)%Z))). specialize (H2 i (negb (m =? 0)%Z)).
  rewrite !list_lookup_fmap, Hm in H1. rewrite list_lookup_fmap, Hm in H2.
  specialize (H1 eq_refl). specialize (H2 eq_refl).
  destruct (m =? 0)%Z; simpl in *.
  - destruct H1 as (w & Hw & Hw').
    destruct (enc_word_ids enc !! i) as [[n|]|]; try done.
    inversion Hw; subst. exists n. split; [done|]. congruence.
  - done.
Qed.

Lemma encode_template_inv (self : T5FineTuned) (sample : gmap string pyval)
    (template : string * string) (e : EncodedSequence) :
  encode_template self sample template = Ok e →
  es_input_ids e = be_input_ids (tok_call (tokenizer self) template.1 template.2)
  ∧ whole_word_ids_of (pad_token_id (tokenizer self))
      (be_encoding0 (tok_call (tokenizer self) template.1 template.2))
    = Ok (es_whole_word_ids e).
Proof.
  unfold encode_template. intros H.
  apply bind_Ok in H as (wwi & Hw & H).
  do 3 bind_inv H. inversion H; subst. done.
Qed.

Lemma tokenize_encoded_inv (self : T5FineTuned) (rnd : nat)
    (sample : gmap string (list pyval)) (l : list EncodedSequence) :
  tokenize_encoded self rnd sample = Ok l →
  ∃ kwargs templates_list,
    result_mapM (encode_template self kwargs) templates_list = Ok l.
Proof.
  unfold tokenize_encoded. intros H.
  apply bind_Ok in H as (uids & _ & H).
  destruct (negb (length uids =? 1)%nat); [done|].
  do 3 bind_inv H. eauto.
Qed.

Lemma result_mapM_elem_of {A B} (f : A → result B) (l : list A) (l' : list B) (y : B) :
  result_mapM f l = Ok l' → y ∈ l' → ∃ x, x ∈ l ∧ f x = Ok y.
Proof.
  revert l'. induction l as [|x l IH]; intros l' H Hy; simpl in H.
  - inversion H; subst. by apply elem_of_nil in Hy.
  - apply bind_Ok in H as (y0 & Hy0 & H). apply bind_Ok in H as (ys & Hys & H).
    inversion H; subst. apply elem_of_cons in Hy as [->|Hy].
    + exists x. split; [left|done].
    + destruct (IH _ Hys Hy) as (x' & Hx' & Hf). exists x'. split; [by right|done].
Qed.

(** [merge_with(list, ...)] under a key every dict has. *)
Lemma merge_with_list_lookup {V} (dicts : list (gmap string V)) (k : string)
    (vs : list V) :
  Forall2 (λ d v, d !! k = Some v) dicts vs →
  merge_with_list dicts !! k = if dicts is [] then None else Some vs.
Proof.
  induction 1 as [|d v dicts vs Hd HF IH]; [done|].
  unfold merge_with_list in *. simpl. rewrite lookup_merge, Hd. simpl.
  rewrite IH. destruct HF; done.
Qed.

Lemma tokenize_fields (self : T5FineTuned) (rnd : nat)
    (sample : gmap string (list pyval)) (l : list EncodedSequence) :
  tokenize_encoded self rnd sample = Ok l →
  ∃ d, tokenize self rnd sample = Ok d
    ∧ (l ≠ [] →
       d !! "input_ids" = Some ((λ e, EInts (es_input_ids e)) <$> l)
       ∧ d !! "whole_word_ids" = Some ((λ e, EWordIds (es_whole_word_ids e)) <$> l)).
Proof.
  intros H. unfold tokenize. rewrite H. simpl. eexists. split; [done|].
  intros Hne. split.
  - rewrite (merge_with_list_lookup _ _ ((λ e, EInts (es_input_ids e)) <$> l)).
    + by destruct l.
    + apply Forall2_fmap, Forall_Forall2_diag, Forall_forall. intros e _.
      unfold encoded_items. by simplify_map_eq.
  - rewrite (merge_with_list_lookup _ _ ((λ e, EWordIds (es_whole_word_ids e)) <$> l)).
    + by destruct l.
    + apply Forall2_fmap, Forall_Forall2_diag, Forall_forall. intros e _.
      unfold encoded_items. by simplify_map_eq.
Qed.

(** C3. With a tokenizer whose per-token arrays are aligned with its input
    ids, every encoded sequence [tokenize] produces has as many whole-word
    ids as input-token ids; a position the tokenizer marks as special
    carries the pad id, and any other position carries the tokenizer's word
    index plus one, which is at least 1.  The two fields of the returned
    dict list these sequences in order. *)
Theorem tokenize_whole_word_ids (self : T5FineTuned) (rnd : nat)
    (sample : gmap string (list pyval)) (l : list EncodedSequence) :
  (∀ text target, encoding_aligned (tok_call (tokenizer self) text target)) →
  tokenize_encoded self rnd sample = Ok l →
  (∃ d, tokenize self rnd sample = Ok d
     ∧ (l ≠ [] →
        d !! "input_ids" = Some ((λ e, EInts (es_input_ids e)) <$> l)
        ∧ d !! "whole_word_ids" = Some ((λ e, EWordIds (es_whole_word_ids e)) <$> l)))
  ∧ ∀ e, e ∈ l →
      length (es_whole_word_ids e) = length (es_input_ids e)
      ∧ ∃ text target,
          let enc := be_encoding0 (tok_call (tokenizer self) text target) in
          es_input_ids e = enc_ids enc
          ∧ length (enc_special_tokens_mask enc) = length (es_input_ids e)
          ∧ ∀ (i : nat) (m : Z), enc_special_tokens_mask enc !! i = Some m →
              if (m =? 0)%Z
              then ∃ w : N, enc_word_ids enc !! i = Some (Some w)
                            ∧ es_whole_word_ids e !! i = Some (Some (Z.of_N w + 1)%Z)
                            ∧ (1 ≤ Z.of_N w + 1)%Z
              else es_whole_word_ids e !! i
                   = Some (Some (pad_token_id (tokenizer self))).
Proof.
  intros Htok H. split; [by apply tokenize_fields|].
  intros e He.
  apply tokenize_encoded_inv in H as (kwargs & templates & H).
  destruct (result_mapM_elem_of _ _ _ _ H He) as ([text target] & _ & Henc).
  apply encode_template_inv in Henc as [Hids Hw]. simpl in Hids, Hw.
  destruct (Htok text target) as (Ha1 & Ha2 & Ha3).
  apply whole_word_ids_of_inv in Hw as (Hl1 & Hl2 & Hpos).
  split; [congruence|].
  exists text, target. simpl. split; [congruence|]. split; [congruence|].
  intros i m Hm. specialize (Hpos i m Hm).
  destruct (m =? 0)%Z; [|done].
  destruct Hpos as (w & Hw1 & Hw2). exists w. repeat split; [done..|lia].
Qed.

Lemma tokenize_whole_word_ids_witness :
  (∀ text target,
     encoding_aligned (tok_call (tokenizer (Demo.model (Some Demo.task) false)) text target))
  ∧ ∃ e, tokenize_encoded (Demo.model (Some Demo.task) false) 0 Demo.sample = Ok [e]
      ∧ length (es_whole_word_ids e) = length (es_input_ids e)
      ∧ es_whole_word_ids e = [Some 1; Some 2; Some 0]%Z.
Proof.
  assert (∀ text target,
     encoding_aligned (tok_call (tokenizer (Demo.model (Some Demo.task) false)) text target))
    as Htok by (intros text target; repeat split).
  split; [exact Htok|].
  eexists. split; [reflexivity|].
  split; [|reflexivity].
  destruct (tokenize_whole_word_ids (Demo.model (Some Demo.task) false) 0 Demo.sample
              _ Htok eq_refl) as [_ H].
  apply H. left.
Defined.

(** C2. With no evaluation task configured and the module not in training
    mode, [tokenize] never returns: it raises, and on a batch-of-one sample
    what it raises is the error of calling the unset task; [valid_step]
    raises its [ValueError] at once, the batch untouched, and the message
    names [set_eval_task()]. *)
Theorem no_eval_task_is_fatal (cfg : InjectPersonalization) (self : T5FineTuned)
    (rnd : nat) (keep : nat → bool) (sample : gmap string (list pyval))
    (batch : gmap string value) :
  training self = false →
  eval_task self = None →
  is_Raise (tokenize self rnd sample)
  ∧ (∀ user_id, sample !! "user_id" = Some [user_id] →
       map_Forall (λ (_ : string) (v : list pyval), v ≠ []) sample →
       tokenize self rnd sample = Raise (TypeError "'NoneType' object is not callable"))
  ∧ valid_step cfg self keep batch = (Raise (ValueError no_eval_task_message), batch)
  ∧ ∃ pre post, no_eval_task_message = (pre +:+ "set_eval_task()" +:+ post)%string.
Proof.
  intros Htr Hev. repeat split.
  - unfold tokenize, tokenize_encoded, is_Raise. rewrite Htr, Hev.
    destruct (getitem sample "user_id") as [uids|]; simpl; [|by eexists].
    destruct (negb (length uids =? 1)%nat); simpl; [by eexists|].
    destruct (unbatch sample); simpl; by eexists.
  - intros user_id Hu Hne.
    unfold tokenize, tokenize_encoded, getitem, unbatch. rewrite Hu, Htr, Hev. simpl.
    by rewrite bool_decide_eq_true_2.
  - unfold valid_step. by rewrite Hev.
  - exists "Model can't perform valid_step since no eval_task is set! Pass it when initializing the model or with `", "`".
    reflexivity.
Qed.

Lemma no_eval_task_is_fatal_witness :
  training (Demo.model None false) = false
  ∧ eval_task (Demo.model None false) = None
  ∧ tokenize (Demo.model None false) 0 Demo.sample
    = Raise (TypeError "'NoneType' object is not callable")
  ∧ valid_step ["train"; "eval"] (Demo.model None false) (λ _, true) Demo.batch
    = (Raise (ValueError no_eval_task_message), Demo.batch).
Proof.
  destruct (no_eval_task_is_fatal ["train"; "eval"] (Demo.model None false) 0
              (λ _, true) Demo.sample Demo.batch eq_refl eq_refl)
    as (_ & Htok & Hvalid & _).
  split; [reflexivity|]. split; [reflexivity|]. split; [|exact Hvalid].
  apply (Htok (PStr "u_3")); [reflexivity|].
  intros k v Hk ->. unfold Demo.sample in Hk.
  apply lookup_insert_Some in Hk as [[_ Hk]|[_ Hk]]; [done|].
  apply lookup_insert_Some in Hk as [[_ Hk]|[_ Hk]]; done.
Defined.

(** ** [np.reshape] *)

Section Reshape.
Context {A : Type}.
Implicit Types (l : list A) (rows cols : nat).

Lemma chunks_length rows cols l :
  length (chunks rows cols l) = rows.
Proof. revert l. induction rows as [|r IH]; intros l; simpl; [done|]. by rewrite IH. Qed.

Lemma chunks_concat rows cols l :
  length l = (rows * cols)%nat → concat (chunks rows cols l) = l.
Proof.
  revert l. induction rows as [|r IH]; intros l Hl; simpl in *.
  - by destruct l.
  - rewrite IH; [apply take_drop|]. rewrite length_drop. lia.
Qed.

Lemma chunks_row_length rows cols l :
  length l = (rows * cols)%nat →
  Forall (λ g : list A, length g = cols) (chunks rows cols l).
Proof.
  revert l. induction rows as [|r IH]; intros l Hl; simpl in *; [done|].
  constructor.
  - rewrite length_take. lia.
  - apply IH. rewrite length_drop. lia.
Qed.

Lemma chunks_lookup rows cols l (i j : nat) :
  (i < rows)%nat → (j < cols)%nat →
  chunks rows cols l !! i ≫= (.!! j) = l !! (i * cols + j)%nat.
Proof.
  revert l i. induction rows as [|r IH]; intros l i Hi Hj; [lia|].
  destruct i as [|i]; simpl.
  - by rewrite lookup_take_lt.
  - rewrite IH by lia. rewrite lookup_drop. f_equal. lia.
Qed.

Lemma np_reshape2_Ok l rows cols :
  length l = (rows * cols)%nat → np_reshape2 l rows cols = Ok (chunks rows cols l).
Proof. intros H. unfold np_reshape2. by rewrite H, Nat.eqb_refl. Qed.

End Reshape.

(** ** [valid_step] *)

(** C6. When the personalization flag does not list ["eval"], what
    [valid_step] returns (prediction groups, target strings, loss, and the
    batch it leaves) is the same for any two values of the user-embedding
    parameters, whatever the dropout draws. *)
Theorem valid_step_ignores_user_embeddings (cfg : InjectPersonalization)
    (self : T5FineTuned) (ue1 ue2 : UserEmbeds) (keep1 keep2 : nat → bool)
    (batch : gmap string value) :
  "eval" ∉ cfg →
  valid_step cfg (with_user_embeddings self ue1) keep1 batch
  = valid_step cfg (with_user_embeddings self ue2) keep2 batch.
Proof.
  intros Hcfg. unfold valid_step, valid_step_body, embed_inputs. simpl.
  by rewrite (bool_decide_eq_false_2 _ Hcfg).
Qed.

Lemma valid_step_ignores_user_embeddings_witness :
  ("eval" ∉ ["train"])
  ∧ valid_step ["train"]
      (with_user_embeddings (Demo.model (Some Demo.task) false)
         (UserEmbeds_init 3 2 Demo.init)) (λ _, true) Demo.batch
    = valid_step ["train"]
      (with_user_embeddings (Demo.model (Some Demo.task) false)
         (UserEmbeds_init 3 2 (λ _ _, 1%Q))) (λ _, false) Demo.batch.
Proof.
  assert ("eval" ∉ ["train"]) as H.
  { intros Hin. apply elem_of_cons in Hin as [Hin|Hin]; [discriminate|].
    by apply elem_of_nil in Hin. }
  split; [exact H|].
  exact (valid_step_ignores_user_embeddings ["train"] _ _ _ _ _ Demo.batch H).
Defined.

(** C10. With an evaluation task set, [valid_step] pops ["target_item"]
    from the caller's batch: the key is absent afterwards, every other
    field is as it was, and a returned result has the popped value as its
    second component. *)
Theorem valid_step_pops_target_item (cfg : InjectPersonalization)
    (self : T5FineTuned) (keep : nat → bool) (batch : gmap string value)
    (task : Task) (target_text : value) :
  eval_task self = Some task →
  batch !! "target_item" = Some target_text →
  (valid_step cfg self keep batch).2 = delete "target_item" batch
  ∧ (valid_step cfg self keep batch).2 !! "target_item" = None
  ∧ (∀ k, k ≠ "target_item" →
       (valid_step cfg self keep batch).2 !! k = batch !! k)
  ∧ ∀ predictions targets loss,
      (valid_step cfg self keep batch).1 = Ok (predictions, targets, loss) →
      targets = target_text.
Proof.
  intros Hev Ht. unfold valid_step. rewrite Hev, Ht. simpl. repeat split.
  - apply lookup_delete_eq.
  - intros k Hk. by apply lookup_delete_ne.
  - intros predictions targets loss H. unfold valid_step_body in H.
    repeat bind_inv H. by inversion H.
Qed.

Lemma valid_step_pops_target_item_witness :
  eval_task (Demo.model (Some Demo.task) false) = Some Demo.task
  ∧ Demo.batch !! "target_item" = Some (VStrs ["item_42"; "item_7"])
  ∧ (valid_step ["eval"] (Demo.model (Some Demo.task) false) (λ _, true) Demo.batch).2
    = delete "target_item" Demo.batch
  ∧ ∃ predictions loss,
      (valid_step ["eval"] (Demo.model (Some Demo.task) false) (λ _, true) Demo.batch).1
      = Ok (predictions, VStrs ["item_42"; "item_7"], loss).
Proof.
  split; [reflexivity|]. split; [reflexivity|].
  destruct (valid_step_pops_target_item ["eval"] (Demo.model (Some Demo.task) false)
              (λ _, true) Demo.batch Demo.task _ eq_refl eq_refl) as (Hpop & _ & _ & _).
  split; [exact Hpop|].
  eexists _, _. vm_compute. reflexivity.
Defined.

(** C5. For a batch with [N] target items, once the embedding step and the
    forward pass have returned and [generate], called with 10 returned
    sequences, 30 beams, at most 50 new tokens, no n-gram constraint and
    early stopping, has returned [N * 10] sequences, [valid_step] returns
    [N] groups of exactly 10 decoded candidates, group [i] holding the
    decoded sequences [10 i .. 10 i + 9] in generation order. *)
Theorem valid_step_prediction_groups (cfg : InjectPersonalization)
    (self : T5FineTuned) (keep : nat → bool) (batch : gmap string value)
    (task : Task) (target_text : value)
    (inputs_embeds : list (list (list Q))) (attention_mask labels : list (list Z))
    (val_loss : Q) (beam_outputs : list (list Z)) :
  eval_task self = Some task →
  batch !! "target_item" = Some target_text →
  embed_inputs cfg "eval" self keep (delete "target_item" batch) = Ok inputs_embeds →
  batch !! "attention_mask" = Some (VTensor2 attention_mask) →
  batch !! "labels" = Some (VTensor2 labels) →
  forward (base self) (training self) inputs_embeds attention_mask labels = Ok val_loss →
  generate (base self) (training self) inputs_embeds attention_mask
    {| num_return_sequences := 10;
       max_new_tokens := 50;
       num_beams := 30;
       no_repeat_ngram_size := 0;
       early_stopping := true |} = Ok beam_outputs →
  length beam_outputs = (value_len target_text * 10)%nat →
  ∃ mapped_predictions,
    (valid_step cfg self keep batch).1 = Ok (mapped_predictions, target_text, val_loss)
    ∧ length mapped_predictions = value_len target_text
    ∧ Forall (λ group : list string, length group = 10%nat) mapped_predictions
    ∧ concat mapped_predictions = tok_decode (tokenizer self) <$> beam_outputs
    ∧ ∀ i j, (i < value_len target_text)%nat → (j < 10)%nat →
        mapped_predictions !! i ≫= (.!! j)
        = tok_decode (tokenizer self) <$> beam_outputs !! (i * 10 + j)%nat.
Proof.
  intros Hev Ht Hemb Ham Hlab Hfwd Hgen Hlen.
  assert (length (tok_decode (tokenizer self) <$> beam_outputs)
          = (value_len target_text * 10)%nat) as Hlen' by by rewrite length_fmap.
  exists (chunks (value_len target_text) 10 (tok_decode (tokenizer self) <$> beam_outputs)).
  split; [|repeat split].
  - unfold valid_step. rewrite Hev, Ht. simpl.
    unfold valid_step_body, getitem. rewrite Hemb. simpl.
    rewrite !lookup_delete_ne, Ham, Hlab by done. simpl.
    rewrite Hfwd. simpl. unfold valid_generation_config. rewrite Hgen. simpl.
    by rewrite np_reshape2_Ok.
  - apply chunks_length.
  - by apply chunks_row_length.
  - by apply chunks_concat.
  - intros i j Hi Hj. rewrite chunks_lookup by done. by rewrite list_lookup_fmap.
Qed.

Lemma valid_step_prediction_groups_witness :
  ∃ mapped_predictions,
    (valid_step ["eval"] (Demo.model (Some Demo.task) false) (λ _, true) Demo.batch).1
    = Ok (mapped_predictions, VStrs ["item_42"; "item_7"], 1 # 2)
    ∧ length mapped_predictions = 2%nat
    ∧ Forall (λ group : list string, length group = 10%nat) mapped_predictions
    ∧ mapped_predictions !! 1%nat ≫= (.!! 0%nat) = Some "item_7".
Proof.
  destruct (valid_step_prediction_groups ["eval"] (Demo.model (Some Demo.task) false)
              (λ _, true) Demo.batch Demo.task (VStrs ["item_42"; "item_7"])
              Demo.inputs_embeds [[1; 1; 1]; [1; 1; 0]]%Z [[3; 1; -100]; [2; -100; 1]]%Z (1 # 2)
              ((λ k : nat, [Z.of_nat k]) <$> seq 0 20)
              eq_refl eq_refl)
    as (preds & Hret & Hlen & Hrows & _ & Hpos).
  - vm_compute. reflexivity.
  - reflexivity.
  - reflexivity.
  - reflexivity.
  - reflexivity.
  - reflexivity.
  - exists preds. repeat split; [exact Hret | exact Hlen | exact Hrows |].
    rewrite (Hpos 1%nat 0%nat); [reflexivity | simpl; lia | lia].
Defined.

(** ** [nn.Embedding] lookups *)

Lemma embedding_row_Ok {A} (weight : list A) (i : Z) (row : A) :
  embedding_row weight i = Ok row ↔ (0 ≤ i)%Z ∧ weight !! Z.to_nat i = Some row.
Proof.
  unfold embedding_row. destruct (Z.leb_spec 0 i) as [Hi|Hi].
  - destruct (weight !! Z.to_nat i) as [r|]; split.
    + intros H. inversion H. done.
    + intros [_ H]. by inversion H.
    + done.
    + by intros [_ ?].
  - split; [done|]. intros [? _]. lia.
Qed.

Lemma embedding_row_in_range {A} (weight : list A) (i : Z) :
  is_Ok (embedding_row weight i) ↔ (0 ≤ i < Z.of_nat (length weight))%Z.
Proof.
  split.
  - intros [row H]. apply embedding_row_Ok in H as [Hi H].
    apply lookup_lt_Some in H. lia.
  - intros [Hi Hlt]. destruct (lookup_lt_is_Some_2 weight (Z.to_nat i)) as [row H]; [lia|].
    exists row. by apply embedding_row_Ok.
Qed.

Lemma embedding_Ok {A} (weight : list A) (idx : list Z) :
  Forall (λ i : Z, (0 ≤ i < Z.of_nat (length weight))%Z) idx →
  is_Ok (embedding weight idx).
Proof.
  unfold embedding. induction 1 as [|i idx Hi _ [rows IH]]; [by eexists|].
  apply embedding_row_in_range in Hi as [row Hrow].
  simpl. rewrite Hrow. simpl. rewrite IH. simpl. by eexists.
Qed.

Lemma embedding_inv {A} (weight : list A) (idx : list Z) (x : list A) :
  embedding weight idx = Ok x →
  length x = length idx
  ∧ ∀ (b : nat) (i : Z), idx !! b = Some i →
      (0 ≤ i < Z.of_nat (length weight))%Z ∧ x !! b = weight !! Z.to_nat i.
Proof.
  unfold embedding. intros H. split; [by eapply result_mapM_length|].
  intros b i Hb.
  destruct (result_mapM_lookup _ _ _ _ _ H Hb) as (row & Hx & Hrow).
  split.
  - apply embedding_row_in_range. by exists row.
  - apply embedding_row_Ok in Hrow as [_ Hrow]. congruence.
Qed.

Lemma embedding_rows_wf (e : Embedding) (idx : list Z) (x : list (list Q)) :
  Embedding_wf e → embedding (weight e) idx = Ok x →
  Forall (λ row : list Q, length row = embedding_dim e) x.
Proof.
  intros [_ Hwf] H. apply Forall_forall. intros row Hrow.
  apply list_elem_of_lookup in Hrow as [b Hb].
  apply embedding_inv in H as [Hlen H].
  destruct (lookup_lt_is_Some_2 idx b) as [i Hi].
  { rewrite <- Hlen. by eapply lookup_lt_Some. }
  destruct (H b i Hi) as [_ Hx]. rewrite Hb in Hx.
  rewrite Forall_forall in Hwf. apply Hwf.
  eapply list_elem_of_lookup_2. by symmetry.
Qed.

Lemma Embedding_init_wf (n dim : nat) (init : nat → nat → Q) :
  Embedding_wf (Embedding_init n dim init).
Proof.
  split; simpl.
  - by rewrite length_fmap, length_seq.
  - apply Forall_fmap, Forall_forall. intros i _. simpl.
    by rewrite length_fmap, length_seq.
Qed.

(** The user table [__init__] builds: one row per user. *)
Lemma T5FineTuned_init_user_table (t5 : T5ForConditionalGeneration)
    (tok : T5TokenizerFast) (d_model users : nat) (tasks : list Task)
    (etask : option Task) (init : nat → nat → Q) (mode : bool) :
  let self := train (T5FineTuned_init t5 tok d_model users tasks etask init) mode in
  Embedding_wf (emb_layer (user_embeddings self))
  ∧ num_embeddings (emb_layer (user_embeddings self)) = n_users self
  ∧ embedding_dim (emb_layer (user_embeddings self)) = d_model.
Proof. simpl. split; [apply Embedding_init_wf|done]. Qed.

(** ** Transposition and channel-wise dropout *)

Lemma nth_fmap_seq {A} (f : nat → A) (n j : nat) (d : A) :
  (j < n)%nat → nth j (f <$> seq 0 n) d = f j.
Proof.
  intros Hj. rewrite nth_lookup, list_lookup_fmap, lookup_seq_lt by done. done.
Qed.

Lemma nth_fmap {A B} (f : A → B) (l : list A) (i : nat) (d : A) (d' : B) :
  (i < length l)%nat → nth i (f <$> l) d' = f (nth i l d).
Proof.
  intros Hi. rewrite !nth_lookup, list_lookup_fmap.
  destruct (lookup_lt_is_Some_2 l i Hi) as [x ->]. done.
Qed.

Lemma nth_nth_lookup (x : list (list Q)) (b j : nat) (v : Q) :
  x !! b ≫= (.!! j) = Some v → nth j (nth b x []) 0%Q = v.
Proof.
  intros H. rewrite !nth_lookup.
  destruct (x !! b) as [row|]; [|done]. simpl in *. by rewrite H.
Qed.

Lemma permute_1_0_lookup (rows cols : nat) (x : list (list Q)) (i j : nat) :
  (i < rows)%nat → (j < cols)%nat →
  permute_1_0 rows cols x !! j ≫= (.!! i) = Some (nth j (nth i x []) 0%Q).
Proof.
  intros Hi Hj. unfold permute_1_0.
  rewrite list_lookup_fmap, lookup_seq_lt by done. simpl.
  by rewrite list_lookup_fmap, lookup_seq_lt.
Qed.

Lemma permute_1_0_involutive (rows cols : nat) (x : list (list Q)) :
  length x = rows → Forall (λ row : list Q, length row = cols) x →
  permute_1_0 cols rows (permute_1_0 rows cols x) = x.
Proof.
  intros Hrows Hcols. apply list_eq. intros i.
  unfold permute_1_0 at 1. rewrite list_lookup_fmap.
  destruct (decide (i < rows)%nat) as [Hi|Hi].
  - rewrite lookup_seq_lt by done. simpl.
    destruct (lookup_lt_is_Some_2 x i) as [row Hrow]; [lia|].
    rewrite Hrow. f_equal. apply list_eq. intros j.
    rewrite list_lookup_fmap.
    assert (length row = cols) as Hlen.
    { rewrite Forall_forall in Hcols. apply Hcols. by eapply list_elem_of_lookup_2. }
    destruct (decide (j < cols)%nat) as [Hj|Hj].
    + rewrite lookup_seq_lt by done. simpl.
      erewrite nth_nth_lookup by by apply permute_1_0_lookup.
      rewrite !nth_lookup, Hrow. simpl.
      destruct (lookup_lt_is_Some_2 row j) as [v ->]; [lia|]. done.
    + rewrite lookup_seq_ge by lia. simpl. symmetry. apply lookup_ge_None. lia.
  - rewrite lookup_seq_ge by lia. simpl. symmetry. apply lookup_ge_None. lia.
Qed.

Lemma permute_1_0_length (rows cols : nat) (x : list (list Q)) :
  length (permute_1_0 rows cols x) = cols.
Proof. unfold permute_1_0. by rewrite length_fmap, length_seq. Qed.

(** Channel [j] of the dropped-out transpose, read at sample [b]. *)
Lemma dropout1d_training_nth (rows cols : nat) (x : list (list Q))
    (p : Q) (keep : nat → bool) (b j : nat) :
  (b < rows)%nat → (j < cols)%nat →
  nth b (nth j (dropout1d (permute_1_0 rows cols x) p true keep) []) 0%Q
  = (nth j (nth b x []) 0 * dropout_noise p (keep j))%Q.
Proof.
  intros Hb Hj. unfold dropout1d, permute_1_0.
  rewrite (nth_lookup _ j), list_lookup_imap, list_lookup_fmap, lookup_seq_lt by done.
  simpl. rewrite nth_lookup, !list_lookup_fmap, lookup_seq_lt by done. done.
Qed.

(** ** The Bernoulli masks *)

Section Bernoulli.
Variable q : Q.
Implicit Types (event : list bool → bool) (dist : list (list bool * Q)).

Lemma probability_ext event event' dist :
  (∀ m, event m = event' m) → probability event dist = probability event' dist.
Proof.
  intros H. induction dist as [|mw dist IH]; [done|]. simpl. by rewrite H, IH.
Qed.

Lemma probability_never dist :
  (probability (λ _, false) dist == 0)%Q.
Proof.
  induction dist as [|mw dist IH]; simpl; [reflexivity|]. rewrite IH. ring.
Qed.

Lemma probability_extend event dist :
  (probability event (extend_masks q dist)
   == q * probability (λ m, event (true :: m)) dist
      + (1 - q) * probability (λ m, event (false :: m)) dist)%Q.
Proof.
  induction dist as [|[m w] dist IH]; simpl; [ring|].
  unfold extend_masks in IH. rewrite IH.
  destruct (event (true :: m)), (event (false :: m)); ring.
Qed.

(** The weights of the masks add up to one. *)
Lemma probability_total (n : nat) :
  (probability (λ _, true) (bernoulli_masks q n) == 1)%Q.
Proof.
  induction n as [|n IH]; simpl; [ring|].
  rewrite probability_extend, IH. ring.
Qed.

(** Any one channel is dropped with probability [1 - q]. *)
Lemma probability_dropped (n j : nat) :
  (j < n)%nat → (probability (dropped j) (bernoulli_masks q n) == 1 - q)%Q.
Proof.
  revert j. induction n as [|n IH]; intros j Hj; [lia|]. simpl.
  rewrite probability_extend. destruct j as [|j].
  - rewrite (probability_ext (λ m, dropped 0 (true :: m)) (λ _, false)) by done.
    rewrite (probability_ext (λ m, dropped 0 (false :: m)) (λ _, true)) by done.
    rewrite probability_never, probability_total. ring.
  - assert (∀ b : bool,
              probability (λ m, dropped (S j) (b :: m)) (bernoulli_masks q n) == 1 - q)%Q
      as Htail by (intros b; apply (IH j); lia).
    rewrite (Htail true), (Htail false). ring.
Qed.

End Bernoulli.

(** ** [UserEmbeds.__call__] *)

Lemma fmap_fmap_lookup {A B} (f : A → B) (x : list (list A)) (b j : nat) (v : A) :
  x !! b ≫= (.!! j) = Some v →
  ((λ row : list A, f <$> row) <$> x) !! b ≫= (.!! j) = Some (f v).
Proof.
  rewrite list_lookup_fmap. destruct (x !! b) as [row|]; [|done]. simpl.
  rewrite list_lookup_fmap. by intros ->.
Qed.

Lemma leaky_relu_dropped (v : Q) : (leaky_relu (v * dropout_noise dropout_p false) == 0)%Q.
Proof. unfold leaky_relu, dropout_noise. destruct (Qle_bool _ _); ring. Qed.

(** The net effect of the call on the rows the table lookup returned. *)
Lemma UserEmbeds_call_lookup (self : UserEmbeds) (training : bool)
    (keep : nat → bool) (user_idx : list Z) (x : list (list Q)) :
  Embedding_wf (emb_layer self) →
  embedding (weight (emb_layer self)) user_idx = Ok x →
  ∃ out, UserEmbeds_call self training keep user_idx = Ok out
    ∧ length out = length user_idx
    ∧ Forall (λ row : list Q, length row = embedding_dim (emb_layer self)) out
    ∧ ∀ (b j : nat) (v : Q), x !! b ≫= (.!! j) = Some v →
        out !! b ≫= (.!! j)
        = Some (leaky_relu (if training
                            then (v * dropout_noise dropout_p (keep j))%Q
                            else v)).
Proof.
  intros Hwf Hx. unfold UserEmbeds_call. rewrite Hx. simpl.
  eexists. split; [reflexivity|]. split; [|split].
  - by rewrite length_fmap, permute_1_0_length.
  - apply Forall_fmap, Forall_forall. intros row Hrow. simpl.
    unfold permute_1_0 in Hrow. apply list_elem_of_fmap in Hrow as (i & -> & _).
    by rewrite !length_fmap, length_seq.
  - intros b j v Hv.
    pose proof (embedding_rows_wf _ _ _ Hwf Hx) as Hrows.
    apply embedding_inv in Hx as [Hlen _].
    destruct (x !! b) as [row|] eqn:Hb; [|done]. simpl in Hv.
    assert (b < length user_idx)%nat as Hb'.
    { rewrite <- Hlen. by eapply lookup_lt_Some. }
    assert (j < embedding_dim (emb_layer self))%nat as Hj.
    { rewrite Forall_forall in Hrows. rewrite <- (Hrows row).
      - by eapply lookup_lt_Some.
      - by eapply list_elem_of_lookup_2. }
    assert (nth j (nth b x []) 0%Q = v) as Hnth.
    { apply nth_nth_lookup. by rewrite Hb. }
    apply fmap_fmap_lookup. rewrite permute_1_0_lookup by done. f_equal.
    destruct training.
    + rewrite dropout1d_training_nth by done. by rewrite Hnth.
    + unfold dropout1d. erewrite nth_nth_lookup by by apply permute_1_0_lookup.
      done.
Qed.

Lemma UserEmbeds_call_inference (self : UserEmbeds) (keep : nat → bool)
    (user_idx : list Z) (x : list (list Q)) :
  Embedding_wf (emb_layer self) →
  embedding (weight (emb_layer self)) user_idx = Ok x →
  UserEmbeds_call self false keep user_idx
  = Ok ((λ row : list Q, leaky_relu <$> row) <$> x).
Proof.
  intros Hwf Hx. unfold UserEmbeds_call. rewrite Hx. simpl.
  unfold dropout1d. rewrite permute_1_0_involutive; [done| |].
  - apply embedding_inv in Hx as [Hlen _]. done.
  - by eapply embedding_rows_wf.
Qed.

(** C7. On the rows [x] the table lookup returns: outside training the
    call is the leaky rectified linear unit of [x], the dropout passing its
    input through; in training, entry [(b, j)] is the leaky rectified
    linear unit of [x[b][j]] times the noise of dimension [j] alone, so a
    dropped dimension is zero for every sample of the batch at once; and
    each dimension is dropped with probability 0.6. *)
Theorem UserEmbeds_call_dropout (self : UserEmbeds) (keep : nat → bool)
    (user_idx : list Z) (x : list (list Q)) :
  Embedding_wf (emb_layer self) →
  embedding (weight (emb_layer self)) user_idx = Ok x →
  UserEmbeds_call self false keep user_idx
  = Ok ((λ row : list Q, leaky_relu <$> row) <$> x)
  ∧ (∃ out, UserEmbeds_call self true keep user_idx = Ok out
       ∧ length out = length x
       ∧ (∀ (b j : nat) (v : Q), x !! b ≫= (.!! j) = Some v →
            out !! b ≫= (.!! j)
            = Some (leaky_relu (v * (if keep j then / (1 - (6 # 10)) else 0))%Q))
       ∧ ∀ j : nat, keep j = false →
           ∀ (b : nat) (v : Q), x !! b ≫= (.!! j) = Some v →
             ∃ o, out !! b ≫= (.!! j) = Some o ∧ (o == 0)%Q)
  ∧ ∀ channels j : nat, (j < channels)%nat →
      (probability (dropped j) (bernoulli_masks (1 - dropout_p) channels) == 6 # 10)%Q
      ∧ ∀ mask, length mask = channels →
          dropped j mask = negb (keep_of_mask mask j).
Proof.
  intros Hwf Hx. split; [by apply UserEmbeds_call_inference|]. split.
  - destruct (UserEmbeds_call_lookup self true keep user_idx x Hwf Hx)
      as (out & Hout & Hlen & _ & Hpos).
    exists out. split; [done|]. split; [|split].
    + apply embedding_inv in Hx as [Hx _]. congruence.
    + intros b j v Hv. rewrite (Hpos b j v Hv). done.
    + intros j Hj b v Hv. rewrite (Hpos b j v Hv), Hj.
      eexists. split; [done|]. apply leaky_relu_dropped.
  - intros channels j Hj. split.
    + rewrite probability_dropped by done. unfold dropout_p. ring.
    + intros mask Hmask. unfold dropped, keep_of_mask.
      destruct (lookup_lt_is_Some_2 mask j) as [[] ->]; [lia|done..].
Qed.

Lemma UserEmbeds_call_dropout_witness :
  Embedding_wf (emb_layer (UserEmbeds_init 3 2 Demo.init))
  ∧ embedding (weight (emb_layer (UserEmbeds_init 3 2 Demo.init))) [2; 1]%Z
    = Ok [[15; 16]; [5; 6]]%Q
  ∧ UserEmbeds_call (UserEmbeds_init 3 2 Demo.init) false (λ j, bool_decide (j = 0%nat))
      [2; 1]%Z
    = Ok [[15; 16]; [5; 6]]%Q
  ∧ ∃ out, UserEmbeds_call (UserEmbeds_init 3 2 Demo.init) true
             (λ j, bool_decide (j = 0%nat)) [2; 1]%Z = Ok out
      ∧ ∀ (b : nat) (v : Q), [[15; 16]; [5; 6]]%Q !! b ≫= (.!! 1%nat) = Some v →
          ∃ o, out !! b ≫= (.!! 1%nat) = Some o ∧ (o == 0)%Q.
Proof.
  pose proof (Embedding_init_wf 3 2 Demo.init) as Hwf.
  assert (embedding (weight (emb_layer (UserEmbeds_init 3 2 Demo.init))) [2; 1]%Z
          = Ok [[15; 16]; [5; 6]]%Q) as Hx by reflexivity.
  destruct (UserEmbeds_call_dropout (UserEmbeds_init 3 2 Demo.init)
              (λ j, bool_decide (j = 0%nat)) [2; 1]%Z _ Hwf Hx)
    as (Hinf & (out & Hout & _ & _ & Hzero) & _).
  split; [exact Hwf|]. split; [exact Hx|]. split; [exact Hinf|].
  exists out. split; [exact Hout|]. exact (Hzero 1%nat eq_refl).
Defined.

(** ** Broadcast addition *)

Lemma wrap_int64_small (z : Z) :
  (int64_min ≤ z ≤ int64_max)%Z → wrap_int64 z = z.
Proof.
  unfold int64_min, int64_max, wrap_int64. intros H.
  rewrite Z.mod_small; lia.
Qed.

Lemma broadcast_zip_singleton {A B C} (f : A → B → result C) (a : list A) (y : B) :
  broadcast_zip f a [y] = result_mapM (λ x, f x y) a.
Proof. unfold broadcast_zip. by destruct a as [|x [|x' a]]. Qed.

Lemma broadcast_zip_aligned {A B C} (f : A → B → result C) (a : list A) (b : list B) :
  length a = length b →
  broadcast_zip f a b = result_mapM (λ xy : A * B, f xy.1 xy.2) (zip a b).
Proof. intros H. unfold broadcast_zip. by rewrite H, Nat.eqb_refl. Qed.

Lemma vector_add_Ok (t u : list Q) :
  length t = length u →
  broadcast_zip (λ x y : Q, Ok (x + y)%Q) t u = Ok (zip_with Qplus t u).
Proof.
  intros H. rewrite broadcast_zip_aligned by done. clear H.
  revert u. induction t as [|x t IH]; intros [|y u]; simpl; try done.
  by rewrite IH.
Qed.

Lemma sequence_add_Ok (sample : list (list Q)) (u : list Q) :
  Forall (λ t : list Q, length t = length u) sample →
  broadcast_zip (broadcast_zip (λ x y : Q, Ok (x + y)%Q)) sample [u]
  = Ok ((λ t : list Q, zip_with Qplus t u) <$> sample).
Proof.
  intros H. rewrite broadcast_zip_singleton.
  apply result_mapM_Ok. intros t Ht. apply vector_add_Ok.
  rewrite Forall_forall in H. by apply H.
Qed.

Lemma tensor3_add_user_Ok (dim : nat) (tok : list (list (list Q)))
    (user_embeds : list (list Q)) :
  length user_embeds = length tok →
  Forall (Forall (λ t : list Q, length t = dim)) tok →
  Forall (λ u : list Q, length u = dim) user_embeds →
  tensor3_add tok ((λ row : list Q, [row]) <$> user_embeds)
  = Ok (zip_with (λ (sample : list (list Q)) (u : list Q),
                    (λ t : list Q, zip_with Qplus t u) <$> sample)
                 tok user_embeds).
Proof.
  intros Hlen Htok Hue. unfold tensor3_add.
  rewrite broadcast_zip_aligned by by rewrite length_fmap.
  revert user_embeds Hlen Hue.
  induction Htok as [|sample tok Hs _ IH]; intros [|u ue] Hlen Hue; simpl in *; try done.
  apply Forall_cons in Hue as [Hu Hue].
  rewrite sequence_add_Ok.
  - simpl. rewrite IH by (done || lia). done.
  - eapply Forall_impl; [exact Hs|]. simpl. intros t Ht. congruence.
Qed.

Lemma zip_with_add_lookup (tok : list (list (list Q))) (user_embeds : list (list Q))
    (b s d : nat) (t u : Q) :
  entry3 tok b s d = Some t →
  user_embeds !! b ≫= (.!! d) = Some u →
  entry3 (zip_with (λ (sample : list (list Q)) (u : list Q),
                      (λ t : list Q, zip_with Qplus t u) <$> sample) tok user_embeds)
    b s d = Some (t + u)%Q.
Proof.
  unfold entry3. intros Ht Hu. rewrite lookup_zip_with.
  destruct (tok !! b) as [sample|]; [|done].
  destruct (user_embeds !! b) as [urow|]; [|done]. simpl in *.
  rewrite list_lookup_fmap.
  destruct (sample !! s) as [tv|]; [|done]. simpl in *.
  rewrite lookup_zip_with, Ht. simpl. by rewrite Hu.
Qed.

(** ** [_inject_personalization] *)

(** What the method computes once the user embeddings are there. *)
Lemma inject_personalization_unfold (self : T5FineTuned) (keep : nat → bool)
    (tok : list (list (list Q))) (user_idxs : list Z) (user_embeds : list (list Q)) :
  length user_idxs = length tok →
  Forall (Forall (λ t : list Q,
            length t = embedding_dim (emb_layer (user_embeddings self)))) tok →
  Embedding_wf (emb_layer (user_embeddings self)) →
  UserEmbeds_call (user_embeddings self) (training self) keep
    ((λ u : Z, wrap_int64 (u - 1)) <$> user_idxs) = Ok user_embeds →
  _inject_personalization self keep tok user_idxs
  = Ok (zip_with (λ (sample : list (list Q)) (u : list Q),
                    (λ t : list Q, zip_with Qplus t u) <$> sample)
                 tok user_embeds).
Proof.
  intros Hlen Htok Hwf Hue. unfold _inject_personalization. rewrite Hue. simpl.
  destruct (embedding (weight (emb_layer (user_embeddings self)))
              ((λ u : Z, wrap_int64 (u - 1)) <$> user_idxs)) as [x|e] eqn:Hx.
  - destruct (UserEmbeds_call_lookup _ (training self) keep _ x Hwf Hx)
      as (out & Hout & Hl & Hrows & _).
    assert (out = user_embeds) as -> by congruence.
    rewrite length_fmap in Hl.
    by apply (tensor3_add_user_Ok (embedding_dim (emb_layer (user_embeddings self)))); [congruence|..].
  - unfold UserEmbeds_call in Hue. by rewrite Hx in Hue.
Qed.

(** C8. When every sample has its user index and the token embeddings have
    the dimension of the user table, the output keeps the shape of the
    token embeddings and, at every batch index [b], position [s] and
    feature [d], is the token embedding plus entry [d] of the one vector
    [UserEmbeds] returns for the shifted index of sample [b]. *)
Theorem inject_personalization_adds_user_vector (self : T5FineTuned)
    (keep : nat → bool) (tok : list (list (list Q))) (user_idxs : list Z) :
  Embedding_wf (emb_layer (user_embeddings self)) →
  length user_idxs = length tok →
  Forall (Forall (λ t : list Q,
            length t = embedding_dim (emb_layer (user_embeddings self)))) tok →
  (Forall (λ u : Z, (1 ≤ u ≤ Z.of_nat (length (weight (emb_layer (user_embeddings self)))))%Z
                    ∧ (u ≤ int64_max)%Z) user_idxs →
   is_Ok (_inject_personalization self keep tok user_idxs))
  ∧ ∀ out, _inject_personalization self keep tok user_idxs = Ok out →
      ∃ user_embeds,
        UserEmbeds_call (user_embeddings self) (training self) keep
          ((λ u : Z, wrap_int64 (u - 1)) <$> user_idxs) = Ok user_embeds
        ∧ length user_embeds = length tok
        ∧ length out = length tok
        ∧ (∀ b sample, tok !! b = Some sample →
             ∃ o, out !! b = Some o ∧ length o = length sample)
        ∧ ∀ (b s d : nat) (t : Q), entry3 tok b s d = Some t →
            ∃ u, user_embeds !! b ≫= (.!! d) = Some u
                 ∧ entry3 out b s d = Some (t + u)%Q.
Proof.
  intros Hwf Hlen Htok.
  assert (∀ user_embeds,
    UserEmbeds_call (user_embeddings self) (training self) keep
      ((λ u : Z, wrap_int64 (u - 1)) <$> user_idxs) = Ok user_embeds →
    length user_embeds = length tok
    ∧ Forall (λ row : list Q,
        length row = embedding_dim (emb_layer (user_embeddings self))) user_embeds)
    as Hshape.
  { intros ue Hue.
    destruct (embedding (weight (emb_layer (user_embeddings self)))
                ((λ u : Z, wrap_int64 (u - 1)) <$> user_idxs)) as [x|e] eqn:Hx.
    - destruct (UserEmbeds_call_lookup _ (training self) keep _ x Hwf Hx)
        as (out & Hout & Hl & Hrows & _).
      assert (out = ue) as -> by congruence.
      rewrite length_fmap in Hl. split; [congruence|done].
    - unfold UserEmbeds_call in Hue. by rewrite Hx in Hue. }
  split.
  - intros Hvalid.
    destruct (embedding_Ok (weight (emb_layer (user_embeddings self)))
                ((λ u : Z, wrap_int64 (u - 1)) <$> user_idxs)) as [x Hx].
    { apply Forall_fmap. eapply Forall_impl; [exact Hvalid|]. simpl.
      intros u [Hu Hmax]. rewrite wrap_int64_small; [lia|].
      unfold int64_min, int64_max in *. lia. }
    destruct (UserEmbeds_call_lookup _ (training self) keep _ x Hwf Hx)
      as (ue & Hue & _).
    eexists. by apply inject_personalization_unfold.
  - intros out Hout.
    destruct (UserEmbeds_call (user_embeddings self) (training self) keep
                ((λ u : Z, wrap_int64 (u - 1)) <$> user_idxs)) as [ue|e] eqn:Hue.
    2: { unfold _inject_personalization in Hout. by rewrite Hue in Hout. }
    destruct (Hshape ue eq_refl) as [Hl Hrows].
    rewrite (inject_personalization_unfold self keep tok user_idxs ue) in Hout by done.
    inversion Hout; subst out. clear Hout.
    exists ue. split; [done|]. split; [done|]. split; [|split].
    + rewrite length_zip_with. lia.
    + intros b sample Hb. rewrite lookup_zip_with, Hb. simpl.
      destruct (lookup_lt_is_Some_2 ue b) as [u ->].
      { rewrite Hl. by eapply lookup_lt_Some. }
      simpl. eexists. split; [done|]. by rewrite length_fmap.
    + intros b s d t Ht. pose proof Ht as Ht'. unfold entry3 in Ht.
      destruct (tok !! b) as [sample|] eqn:Hb; [|done]. simpl in Ht.
      destruct (sample !! s) as [tv|] eqn:Hs; [|done]. simpl in Ht.
      destruct (lookup_lt_is_Some_2 ue b) as [urow Hu].
      { rewrite Hl. by eapply lookup_lt_Some. }
      destruct (lookup_lt_is_Some_2 urow d) as [u Hd].
      { rewrite Forall_forall in Hrows. rewrite (Hrows urow) by by eapply list_elem_of_lookup_2.
        rewrite Forall_forall in Htok.
        assert (Forall (λ t : list Q,
                  length t = embedding_dim (emb_layer (user_embeddings self))) sample)
          as Hsample by (apply Htok; by eapply list_elem_of_lookup_2).
        rewrite Forall_forall in Hsample. rewrite <- (Hsample tv).
        - by eapply lookup_lt_Some.
        - by eapply list_elem_of_lookup_2. }
      exists u. split; [by rewrite Hu|].
      apply zip_with_add_lookup; [done|]. by rewrite Hu.
Qed.

Lemma inject_personalization_adds_user_vector_witness :
  Embedding_wf (emb_layer (user_embeddings (Demo.model (Some Demo.task) false)))
  ∧ ∃ out user_embeds u,
      _inject_personalization (Demo.model (Some Demo.task) false) (λ _, true)
        [[[7; 0]]; [[1; 1]; [2; 2]]]%Q [3; 2]%Z = Ok out
      ∧ UserEmbeds_call (user_embeddings (Demo.model (Some Demo.task) false)) false
          (λ _, true) [2; 1]%Z = Ok user_embeds
      ∧ user_embeds !! 1%nat ≫= (.!! 0%nat) = Some u
      ∧ entry3 out 1 0 0 = Some (1 + u)%Q
      ∧ entry3 out 1 1 0 = Some (2 + u)%Q.
Proof.
  pose proof (Embedding_init_wf 3 2 Demo.init) as Hwf.
  split; [exact Hwf|].
  destruct (inject_personalization_adds_user_vector
              (Demo.model (Some Demo.task) false) (λ _, true)
              [[[7; 0]]; [[1; 1]; [2; 2]]]%Q [3; 2]%Z Hwf eq_refl) as [Hok Hinv].
  - repeat constructor.
  - destruct Hok as [out Hout].
    + repeat constructor; simpl; unfold int64_max; lia.
    + destruct (Hinv out Hout) as (ue & Hue & _ & _ & _ & Hpos).
      destruct (Hpos 1%nat 0%nat 0%nat 1%Q eq_refl) as (u & Hu & H0).
      destruct (Hpos 1%nat 1%nat 0%nat 2%Q eq_refl) as (u' & Hu' & H1).
      assert (u' = u) as -> by congruence.
      exists out, ue, u. repeat split; [exact Hout | exact Hue | exact Hu | exact H0 | exact H1].
Defined.

(** ** The range of user indices *)

Lemma inject_personalization_is_Ok (self : T5FineTuned) (keep : nat → bool)
    (tok : list (list (list Q))) (user_idxs : list Z) :
  Embedding_wf (emb_layer (user_embeddings self)) →
  length user_idxs = length tok →
  Forall (Forall (λ t : list Q,
            length t = embedding_dim (emb_layer (user_embeddings self)))) tok →
  is_Ok (_inject_personalization self keep tok user_idxs)
  ↔ is_Ok (embedding (weight (emb_layer (user_embeddings self)))
             ((λ u : Z, wrap_int64 (u - 1)) <$> user_idxs)).
Proof.
  intros Hwf Hlen Htok. split.
  - intros [out Hout]. unfold _inject_personalization, UserEmbeds_call in Hout.
    destruct (embedding _ _) as [x|e]; [by eexists|done].
  - intros [x Hx].
    destruct (UserEmbeds_call_lookup _ (training self) keep _ x Hwf Hx)
      as (ue & Hue & _).
    eexists. by apply inject_personalization_unfold.
Qed.

Lemma embedding_singleton {A} (weight : list A) (i : Z) :
  embedding weight [i] = (row ← embedding_row weight i; Ok [row]).
Proof. unfold embedding. simpl. by destruct (embedding_row weight i). Qed.

Lemma shifted_index_in_range (n : nat) (u : Z) :
  (Z.of_nat n ≤ int64_max)%Z → (int64_min ≤ u ≤ int64_max)%Z →
  (0 ≤ wrap_int64 (u - 1) < Z.of_nat n)%Z ↔ (1 ≤ u ≤ Z.of_nat n)%Z.
Proof.
  intros Hn Hu. destruct (decide (u = int64_min)) as [->|Hne].
  - change (wrap_int64 (int64_min - 1)) with int64_max.
    unfold int64_min, int64_max in *. lia.
  - rewrite wrap_int64_small; [lia|]. unfold int64_min, int64_max in *. lia.
Qed.

(** C1, as the code has it.  The table has [n_users] rows and the index is
    shifted by one before the lookup: personalization injection accepts a
    user index [u] exactly when [1 ≤ u ≤ n_users], and then reads row
    [u - 1]; index 1 reads row 0, index [n_users] reads the last row,
    [n_users - 1], and indices 0 and [n_users + 1] are refused. *)
Theorem user_index_bounds (self : T5FineTuned) (keep : nat → bool)
    (sample : list (list Q)) (u : Z) :
  Embedding_wf (emb_layer (user_embeddings self)) →
  num_embeddings (emb_layer (user_embeddings self)) = n_users self →
  (Z.of_nat (n_users self) ≤ int64_max)%Z →
  (int64_min ≤ u ≤ int64_max)%Z →
  Forall (λ t : list Q,
            length t = embedding_dim (emb_layer (user_embeddings self))) sample →
  (is_Ok (_inject_personalization self keep [sample] [u])
   ↔ (1 ≤ u ≤ Z.of_nat (n_users self))%Z)
  ∧ ((1 ≤ u ≤ Z.of_nat (n_users self))%Z →
     ∃ row, weight (emb_layer (user_embeddings self)) !! Z.to_nat (u - 1) = Some row
            ∧ embedding (weight (emb_layer (user_embeddings self)))
                [wrap_int64 (u - 1)] = Ok [row])
  ∧ ((0 < n_users self)%nat →
     ∃ first last,
       weight (emb_layer (user_embeddings self)) !! 0%nat = Some first
       ∧ embedding (weight (emb_layer (user_embeddings self)))
           [wrap_int64 (1 - 1)] = Ok [first]
       ∧ weight (emb_layer (user_embeddings self)) !! (n_users self - 1)%nat = Some last
       ∧ embedding (weight (emb_layer (user_embeddings self)))
           [wrap_int64 (Z.of_nat (n_users self) - 1)] = Ok [last]
       ∧ is_Ok (_inject_personalization self keep [sample] [Z.of_nat (n_users self)]))
  ∧ is_Raise (_inject_personalization self keep [sample] [Z.of_nat (n_users self) + 1]%Z)
  ∧ is_Raise (_inject_personalization self keep [sample] [0%Z]).
Proof.
  intros Hwf Hn Hmax Hu Hsample.
  pose proof Hwf as [Hrows _]. rewrite Hn in Hrows.
  assert (∀ v : Z,
    is_Ok (_inject_personalization self keep [sample] [v])
    ↔ (0 ≤ wrap_int64 (v - 1) < Z.of_nat (n_users self))%Z) as Hiff.
  { intros v. rewrite inject_personalization_is_Ok; [|done|done|by constructor].
    simpl. rewrite embedding_singleton, <- Hrows, <- embedding_row_in_range.
    unfold is_Ok. destruct (embedding_row _ _) as [row|e]; simpl.
    - split; intros _; by eexists.
    - split; intros [? ?]; done. }
  assert (∀ v : Z, (1 ≤ v ≤ Z.of_nat (n_users self))%Z →
    ∃ row, weight (emb_layer (user_embeddings self)) !! Z.to_nat (v - 1) = Some row
           ∧ embedding (weight (emb_layer (user_embeddings self)))
               [wrap_int64 (v - 1)] = Ok [row]) as Hrow.
  { intros v Hv.
    destruct (lookup_lt_is_Some_2 (weight (emb_layer (user_embeddings self)))
                (Z.to_nat (v - 1))) as [row Hr]; [lia|].
    exists row. split; [done|]. rewrite embedding_singleton.
    rewrite wrap_int64_small by (unfold int64_min, int64_max in *; lia).
    assert (embedding_row (weight (emb_layer (user_embeddings self))) (v - 1) = Ok row)
      as -> by (apply embedding_row_Ok; split; [lia|done]).
    done. }
  assert (∀ v : Z, ¬ (0 ≤ wrap_int64 (v - 1) < Z.of_nat (n_users self))%Z →
    is_Raise (_inject_personalization self keep [sample] [v])) as Hraise.
  { intros v Hv. destruct (_inject_personalization self keep [sample] [v]) as [out|e] eqn:E.
    - exfalso. apply Hv, Hiff. by eexists.
    - by eexists. }
  split; [|split; [|split; [|split]]].
  - rewrite Hiff. by apply shifted_index_in_range.
  - apply Hrow.
  - intros Hpos.
    destruct (Hrow 1%Z) as (first & Hf1 & Hf2); [lia|].
    destruct (Hrow (Z.of_nat (n_users self))) as (last & Hl1 & Hl2); [lia|].
    exists first, last. split; [done|]. split; [done|]. split.
    { rewrite <- Hl1. f_equal. lia. }
    split; [done|].
    apply Hiff. rewrite wrap_int64_small by (unfold int64_min, int64_max in *; lia). lia.
  - apply Hraise. rewrite wrap_int64_small by (unfold int64_min, int64_max in *; lia). lia.
  - apply Hraise. change (wrap_int64 (0 - 1)) with (-1)%Z. lia.
Qed.

Lemma user_index_bounds_witness :
  is_Ok (_inject_personalization (Demo.model None true) (λ _, true) [[[7; 0]]]%Q [3]%Z)
  ∧ is_Raise (_inject_personalization (Demo.model None true) (λ _, true) [[[7; 0]]]%Q [4]%Z)
  ∧ embedding (weight (emb_layer (user_embeddings (Demo.model None true))))
      [wrap_int64 (1 - 1)] = Ok [[-5; -4]]%Q.
Proof.
  destruct (T5FineTuned_init_user_table Demo.t5 Demo.tok 2 3 [Demo.task] None
              Demo.init true) as (Hwf & Hn & _).
  destruct (user_index_bounds (Demo.model None true) (λ _, true) [[7; 0]]%Q 3%Z Hwf Hn)
    as (Hiff & _ & Hends & Hnext & _).
  - unfold int64_max. simpl. lia.
  - unfold int64_min, int64_max. lia.
  - repeat constructor.
  - split; [apply Hiff; simpl; lia|]. split; [exact Hnext|].
    destruct Hends as (first & last & Hf1 & Hf2 & _); [simpl; lia|].
    rewrite Hf2. f_equal. f_equal. by inversion Hf1.
Defined.

(** C1, as the specification words it, fails: with three users, user index
    3 (equal to [n_users]) is shifted to row 2, which is in bounds, and the
    injection returns. *)
Lemma user_index_n_users_is_accepted :
  n_users (Demo.model None false) = 3%nat
  ∧ (wrap_int64 (3 - 1) < Z.of_nat (n_users (Demo.model None false)))%Z
  ∧ embedding (weight (emb_layer (user_embeddings (Demo.model None false))))
      [wrap_int64 (3 - 1)] = Ok [[15; 16]]%Q
  ∧ _inject_personalization (Demo.model None false) (λ _, true) [[[0; 0]]]%Q [3]%Z
    = Ok [[[15; 16]]]%Q.
Proof. repeat split; vm_compute; reflexivity. Qed.

(** * Further properties of the methods *)

(** ** [prepare_input], field by field *)

Lemma padded_field_Ok_iff (self : T5FineTuned) (batch : gmap string value)
    (field : string) :
  is_Ok (padded_field self batch field)
  ↔ nonempty_sequences (batch !! field) = true.
Proof.
  split; [|apply padded_field_Ok].
  intros [padded H]. apply padded_field_inv in H as (v & sequences & -> & Hs & Hp).
  destruct v as [t|t|ts|l]; try done; simpl in Hs; inversion Hs; subst;
    by destruct sequences.
Qed.

(** Everything a successful [prepare_input] returns. *)
Lemma prepare_input_inv_full (self : T5FineTuned) (batch input_dict : gmap string value) :
  prepare_input self batch = Ok input_dict →
  ∃ input_ids attention_mask whole_word_ids user_idx,
    padded_field self batch "input_ids" = Ok input_ids
    ∧ padded_field self batch "attention_mask" = Ok attention_mask
    ∧ padded_field self batch "whole_word_ids" = Ok whole_word_ids
    ∧ batch !! "user_idx" = Some user_idx
    ∧ is_tensor (Some user_idx) = true
    ∧ input_dict !! "input_ids" = Some (VTensor2 input_ids)
    ∧ input_dict !! "attention_mask" = Some (VTensor2 attention_mask)
    ∧ input_dict !! "whole_word_ids" = Some (VTensor2 whole_word_ids)
    ∧ input_dict !! "user_idx" = Some user_idx
    ∧ match batch !! "labels" with
      | Some _ =>
          ∃ lm_labels, padded_field self batch "labels" = Ok lm_labels
            ∧ input_dict !! "labels"
              = Some (VTensor2 (masked_fill_eq (pad_token_id (tokenizer self))
                                               ignore_index lm_labels))
      | None => input_dict !! "labels" = None
      end
    ∧ (if training self then input_dict !! "target_item" = None
       else is_Some (batch !! "target_item")
            ∧ input_dict !! "target_item" = batch !! "target_item")
    ∧ ∀ k, k ∉ encoded_keys → input_dict !! k = None.
Proof.
  unfold prepare_input. intros H.
  apply bind_Ok in H as (input_ids & Hids & H).
  apply bind_Ok in H as (attention_mask & Ham & H).
  apply bind_Ok in H as (whole_word_ids & Hww & H).
  apply bind_Ok in H as (user_idx & Hu & H).
  apply bind_Ok in H as (d & Hd & H).
  exists input_ids, attention_mask, whole_word_ids, user_idx.
  assert (batch !! "user_idx" = Some user_idx ∧ is_tensor (Some user_idx) = true)
    as [Hu1 Hu2].
  { unfold getitem in Hu. destruct (batch !! "user_idx") as [[]|]; try done;
      simpl in Hu; by inversion Hu. }
  assert (∀ k, k ∉ encoded_keys → k ≠ "input_ids" ∧ k ≠ "attention_mask"
            ∧ k ≠ "labels" ∧ k ≠ "user_idx" ∧ k ≠ "whole_word_ids"
            ∧ k ≠ "target_item") as Hkeys.
  { intros k Hk. unfold encoded_keys in Hk. repeat split; intros ->; apply Hk;
      repeat (first [by left | right]). }
  assert (d !! "input_ids" = Some (VTensor2 input_ids)
          ∧ d !! "attention_mask" = Some (VTensor2 attention_mask)
          ∧ d !! "whole_word_ids" = Some (VTensor2 whole_word_ids)
          ∧ d !! "user_idx" = Some user_idx
          ∧ d !! "target_item" = None
          ∧ match batch !! "labels" with
            | Some _ =>
                ∃ lm_labels, padded_field self batch "labels" = Ok lm_labels
                  ∧ d !! "labels"
                    = Some (VTensor2 (masked_fill_eq (pad_token_id (tokenizer self))
                                                     ignore_index lm_labels))
            | None => d !! "labels" = None
            end
          ∧ ∀ k, k ∉ encoded_keys → d !! k = None) as (D1 & D2 & D3 & D4 & D5 & D6 & D7).
  { destruct (batch !! "labels") as [lv|] eqn:Hl.
    - apply bind_Ok in Hd as (lm & Hlm & Hd). inversion Hd; subst.
      repeat split; try (by simplify_map_eq).
      + exists lm. split; [done|]. by simplify_map_eq.
      + intros k Hk. destruct (Hkeys k Hk) as (? & ? & ? & ? & ? & ?).
        by rewrite !lookup_insert_ne.
    - inversion Hd; subst. repeat split; try (by simplify_map_eq).
      intros k Hk. destruct (Hkeys k Hk) as (? & ? & ? & ? & ? & ?).
      by rewrite !lookup_insert_ne. }
  destruct (training self); simpl in H.
  - inversion H; subst. by repeat split.
  - apply bind_Ok in H as (t & Ht & H). inversion H; subst.
    unfold getitem in Ht. destruct (batch !! "target_item") as [t'|] eqn:Hti; [|done].
    inversion Ht; subst.
    split_and!; try done; try (by rewrite lookup_insert_ne).
    + by rewrite lookup_insert_eq.
    + intros k Hk. destruct (Hkeys k Hk) as (? & ? & ? & ? & ? & ?).
      rewrite lookup_insert_ne by done. by apply D7.
Qed.

(** X1. [prepare_input] returns exactly on the batches whose three padded
    fields (and the labels, when present) are non-empty sequences of
    tensors, whose user indices are a tensor and which, outside training
    mode, carry the target items; on any other batch it raises. *)
Theorem prepare_input_defined_iff (self : T5FineTuned) (batch : gmap string value) :
  is_Ok (prepare_input self batch) ↔ batch_ready self batch = true.
Proof.
  split; [|apply prepare_input_Ok].
  intros [d H].
  apply prepare_input_inv_full in H
    as (ids & am & ww & u & H1 & H2 & H3 & Hu & Ht & _ & _ & _ & _ & Hl & Htr & _).
  unfold batch_ready. rewrite !andb_true_iff. split_and!.
  - apply (proj1 (padded_field_Ok_iff self batch _)). by eexists.
  - apply (proj1 (padded_field_Ok_iff self batch _)). by eexists.
  - apply (proj1 (padded_field_Ok_iff self batch _)). by eexists.
  - by rewrite Hu.
  - destruct (batch !! "labels") as [lv|] eqn:E; [|done].
    destruct Hl as (lm & Hlm & _). rewrite <- E.
    apply (proj1 (padded_field_Ok_iff self batch _)). by eexists.
  - destruct (training self); [done|]. simpl.
    apply bool_decide_eq_true. by destruct Htr.
Qed.

(** X2. The dict a successful [prepare_input] returns has the four tensor
    fields, ["labels"] exactly when the batch has labels, and
    ["target_item"] exactly when the module is not in training mode; no
    other field of the batch is forwarded.  The user indices and the target
    items are passed through unchanged. *)
Theorem prepare_input_keys (self : T5FineTuned) (batch input_dict : gmap string value) :
  prepare_input self batch = Ok input_dict →
  dom input_dict
  = list_to_set ["input_ids"; "attention_mask"; "whole_word_ids"; "user_idx"]
    ∪ (if batch !! "labels" is Some _ then {["labels"]} else ∅)
    ∪ (if training self then ∅ else {["target_item"]})
  ∧ input_dict !! "user_idx" = batch !! "user_idx"
  ∧ (training self = false → input_dict !! "target_item" = batch !! "target_item").
Proof.
  intros H. split.
  - unfold prepare_input in H. do 4 bind_inv H.
    apply bind_Ok in H as (d & Hd & H).
    assert (dom d = list_to_set ["input_ids"; "attention_mask"; "whole_word_ids"; "user_idx"]
                    ∪ (if batch !! "labels" is Some _ then {["labels"]} else ∅)) as Hdom.
    { destruct (batch !! "labels").
      - bind_inv Hd. inversion Hd; subst.
        rewrite !dom_insert_L, dom_empty_L. simpl. set_solver.
      - inversion Hd; subst.
        rewrite !dom_insert_L, dom_empty_L. simpl. set_solver. }
    destruct (training self); simpl in H.
    + inversion H; subst. rewrite Hdom. by rewrite (right_id_L ∅ (∪)).
    + bind_inv H. inversion H; subst. rewrite dom_insert_L, Hdom.
      apply (comm_L (∪)).
  - apply prepare_input_inv_full in H
      as (ids & am & ww & u & _ & _ & _ & Hu & _ & _ & _ & _ & Hu' & _ & Htr & _).
    split; [congruence|]. intros E. rewrite E in Htr. by destruct Htr.
Qed.

Lemma prepare_input_keys_witness :
  ∃ d, prepare_input (Demo.model None false) Demo.raw_batch = Ok d
    ∧ "target_item" ∈ dom d
    ∧ d !! "user_idx" = Some (VTensor1 [3; 1]%Z)
    ∧ d !! "target_item" = Some (VStrs ["item_42"; "item_7"]).
Proof.
  destruct (prepare_input (Demo.model None false) Demo.raw_batch) as [d|e] eqn:E;
    [|discriminate E].
  exists d. split; [done|].
  destruct (prepare_input_keys _ _ _ E) as (Hdom & Hu & Ht).
  split; [|split].
  - rewrite Hdom. apply elem_of_union_r. by apply elem_of_singleton.
  - rewrite Hu. reflexivity.
  - rewrite Ht; reflexivity.
Defined.

Lemma Forall2_length_max_list (a b : list (list Z)) :
  Forall2 (λ s m : list Z, length s = length m) a b →
  max_list (length <$> a) = max_list (length <$> b).
Proof.
  induction 1 as [|s m a b Hl _ IH]; [done|].
  simpl. rewrite Hl. f_equal. exact IH.
Qed.

(** X3. When every sample's attention mask is as long as its input ids, the
    padded [input_ids] and [attention_mask] have the same shape and the
    same padding positions: row [i] of each is the sample's sequence
    followed by the same number of copies of the pad id.  The mask is
    padded with the tokenizer's pad id, not with a literal zero. *)
Theorem prepare_input_mask_follows_padding (self : T5FineTuned)
    (batch input_dict : gmap string value) (vi vm : value)
    (ids masks : list (list Z)) :
  prepare_input self batch = Ok input_dict →
  batch !! "input_ids" = Some vi → as_sequences vi = Ok ids →
  batch !! "attention_mask" = Some vm → as_sequences vm = Ok masks →
  Forall2 (λ s m : list Z, length s = length m) ids masks →
  ∃ padded_ids padded_mask,
    input_dict !! "input_ids" = Some (VTensor2 padded_ids)
    ∧ input_dict !! "attention_mask" = Some (VTensor2 padded_mask)
    ∧ length padded_ids = length padded_mask
    ∧ ∀ (i : nat) (s m : list Z), ids !! i = Some s → masks !! i = Some m →
        ∃ k : nat,
          (length s + k = max_list (length <$> ids))%nat
          ∧ padded_ids !! i = Some (s ++ replicate k (pad_token_id (tokenizer self)))
          ∧ padded_mask !! i = Some (m ++ replicate k (pad_token_id (tokenizer self))).
Proof.
  intros H Hvi Hids Hvm Hmasks Hlen.
  apply prepare_input_inv_full in H
    as (pi & pm & _ & _ & H1 & H2 & _ & _ & _ & D1 & D2 & _).
  apply padded_field_inv in H1 as (vi' & ids' & Hvi' & Hids' & Hp1).
  apply padded_field_inv in H2 as (vm' & masks' & Hvm' & Hmasks' & Hp2).
  assert (vi' = vi) as -> by congruence. assert (vm' = vm) as -> by congruence.
  assert (ids' = ids) as -> by congruence. assert (masks' = masks) as -> by congruence.
  apply pad_sequence_inv in Hp1 as ->. apply pad_sequence_inv in Hp2 as ->.
  eexists _, _. split; [exact D1|]. split; [exact D2|]. split.
  - rewrite !length_fmap. by eapply Forall2_length.
  - intros i s m Hs Hm.
    exists (max_list (length <$> ids) - length s)%nat.
    pose proof (Forall2_lookup_lr _ _ _ _ _ _ Hlen Hs Hm) as Hsm. simpl in Hsm.
    split; [|split].
    + pose proof (length_le_max_list ids s) as Hle.
      assert (s ∈ ids) by by eapply list_elem_of_lookup_2.
      specialize (Hle H). lia.
    + by rewrite list_lookup_fmap, Hs.
    + rewrite list_lookup_fmap, Hm. simpl.
      by rewrite <- (Forall2_length_max_list _ _ Hlen), Hsm.
Qed.

Lemma prepare_input_mask_follows_padding_witness :
  ∃ input_dict padded_mask,
    prepare_input (Demo.model None true) Demo.raw_batch = Ok input_dict
    ∧ input_dict !! "attention_mask" = Some (VTensor2 padded_mask)
    ∧ padded_mask !! 1%nat = Some [1; 1; 0]%Z.
Proof.
  destruct (prepare_input (Demo.model None true) Demo.raw_batch) as [d|e] eqn:E;
    [|discriminate E].
  destruct (prepare_input_mask_follows_padding (Demo.model None true) Demo.raw_batch d
              (VTensors [[2; 3; 1]; [3; 1]]%Z) (VTensors [[1; 1; 1]; [1; 1]]%Z)
              [[2; 3; 1]; [3; 1]]%Z [[1; 1; 1]; [1; 1]]%Z E eq_refl eq_refl eq_refl eq_refl)
    as (pi & pm & _ & Hm & _ & Hrows).
  - repeat constructor.
  - exists d, pm. split; [done|]. split; [exact Hm|].
    destruct (Hrows 1%nat [3; 1]%Z [1; 1]%Z eq_refl eq_refl) as (k & Hk & _ & Hrow).
    simpl in Hk. assert (k = 1%nat) as -> by lia. exact Hrow.
Defined.

Lemma masked_fill_eq_padded_row (pad new : Z) (s : list Z) (k : nat) :
  pad ∉ s →
  (λ x : Z, if (x =? pad)%Z then new else x) <$> (s ++ replicate k pad)
  = s ++ replicate k new.
Proof.
  intros Hs. rewrite fmap_app, fmap_replicate, Z.eqb_refl. f_equal.
  induction s as [|x s IH]; [done|].
  apply not_elem_of_cons in Hs as [Hx Hs]. simpl.
  destruct (Z.eqb_spec x pad); [congruence|]. f_equal. by apply IH.
Qed.

(** X4. Row [i] of the returned label tensor is the label sequence of
    sample [i] followed by copies of -100 up to the longest label sequence,
    provided the sequence holds no pad id; if it holds no -100 either,
    dropping the -100 entries of the row gives the sequence back. *)
Theorem prepare_input_labels_roundtrip (self : T5FineTuned)
    (batch input_dict : gmap string value) (v : value) (sequences : list (list Z)) :
  prepare_input self batch = Ok input_dict →
  batch !! "labels" = Some v → as_sequences v = Ok sequences →
  ∃ lm_labels,
    input_dict !! "labels" = Some (VTensor2 lm_labels)
    ∧ ∀ (i : nat) (s : list Z), sequences !! i = Some s →
        pad_token_id (tokenizer self) ∉ s →
        lm_labels !! i
        = Some (s ++ replicate (max_list (length <$> sequences) - length s) (-100)%Z)
        ∧ ((-100)%Z ∉ s → strip_pad (-100) <$> lm_labels !! i = Some s).
Proof.
  intros H Hv Hs.
  apply prepare_input_inv_full in H
    as (_ & _ & _ & _ & _ & _ & _ & _ & _ & _ & _ & _ & _ & Hl & _).
  rewrite Hv in Hl. destruct Hl as (lm & Hlm & Hd).
  apply padded_field_inv in Hlm as (v' & sequences' & Hv' & Hs' & Hp).
  assert (v' = v) as -> by congruence.
  assert (sequences' = sequences) as -> by congruence.
  apply pad_sequence_inv in Hp as ->.
  eexists. split; [exact Hd|].
  intros i s Hi Hpad.
  assert (masked_fill_eq (pad_token_id (tokenizer self)) ignore_index
            ((λ s0 : list Z, s0 ++ replicate (max_list (length <$> sequences) - length s0)
                                      (pad_token_id (tokenizer self))) <$> sequences) !! i
          = Some (s ++ replicate (max_list (length <$> sequences) - length s) (-100)%Z))
    as Hrow.
  { unfold masked_fill_eq. rewrite !list_lookup_fmap, Hi. simpl. f_equal.
    by apply masked_fill_eq_padded_row. }
  split; [exact Hrow|].
  intros Hign. rewrite Hrow. simpl. f_equal. by apply strip_pad_padded.
Qed.

Lemma prepare_input_labels_roundtrip_witness :
  ∃ input_dict lm_labels,
    prepare_input (Demo.model None true) Demo.raw_batch = Ok input_dict
    ∧ input_dict !! "labels" = Some (VTensor2 lm_labels)
    ∧ lm_labels !! 0%nat = Some [3; 1; -100]%Z
    ∧ strip_pad (-100) <$> lm_labels !! 0%nat = Some [3; 1]%Z.
Proof.
  destruct (prepare_input (Demo.model None true) Demo.raw_batch) as [d|e] eqn:E;
    [|discriminate E].
  destruct (prepare_input_labels_roundtrip (Demo.model None true) Demo.raw_batch d
              (VTensors [[3; 1]; [2; 0; 1]]%Z) [[3; 1]; [2; 0; 1]]%Z E eq_refl eq_refl)
    as (lm & Hlm & Hrows).
  exists d, lm. split; [done|]. split; [exact Hlm|].
  assert (∀ z : Z, z ≠ 3%Z → z ≠ 1%Z → z ∉ [3; 1]%Z) as Hnotin.
  { intros z H3 H1 Hin. apply elem_of_cons in Hin as [->|Hin]; [done|].
    apply elem_of_cons in Hin as [->|Hin]; [done|]. by apply elem_of_nil in Hin. }
  destruct (Hrows 0%nat [3; 1]%Z eq_refl) as [Hrow Hstrip].
  - apply Hnotin; simpl; lia.
  - split; [exact Hrow|]. apply Hstrip. apply Hnotin; lia.
Defined.

(** ** The step methods *)

(** X5. [valid_step] on a batch [prepare_input] built: if the module was in
    training mode the batch has no target items and [valid_step] raises
    [KeyError], leaving it as it is; otherwise the pop finds the caller's
    own target items, and they are what a returned result carries. *)
Theorem prepare_then_valid_step (cfg : InjectPersonalization) (self : T5FineTuned)
    (keep : nat → bool) (batch input_dict : gmap string value) (task : Task) :
  prepare_input self batch = Ok input_dict →
  eval_task self = Some task →
  (training self = true →
     valid_step cfg self keep input_dict = (Raise (KeyError "target_item"), input_dict))
  ∧ (training self = false →
     ∃ target_text, batch !! "target_item" = Some target_text
       ∧ (valid_step cfg self keep input_dict).2 = delete "target_item" input_dict
       ∧ ∀ predictions targets loss,
           (valid_step cfg self keep input_dict).1 = Ok (predictions, targets, loss) →
           targets = target_text).
Proof.
  intros H Hev.
  apply prepare_input_inv_full in H
    as (_ & _ & _ & _ & _ & _ & _ & _ & _ & _ & _ & _ & _ & _ & Htr & _).
  split; intros Hmode; rewrite Hmode in Htr.
  - unfold valid_step. by rewrite Hev, Htr.
  - destruct Htr as [[t Ht] Hd]. exists t. split; [done|].
    unfold valid_step. rewrite Hev, Hd, Ht. simpl. split; [done|].
    intros predictions targets loss Hr. unfold valid_step_body in Hr.
    repeat bind_inv Hr. by inversion Hr.
Qed.

Lemma prepare_then_valid_step_witness :
  (∃ d, prepare_input (Demo.model (Some Demo.task) true) Demo.raw_batch = Ok d
     ∧ valid_step ["eval"] (Demo.model (Some Demo.task) true) (λ _, true) d
       = (Raise (KeyError "target_item"), d))
  ∧ ∃ d, prepare_input (Demo.model (Some Demo.task) false) Demo.raw_batch = Ok d
      ∧ (valid_step ["eval"] (Demo.model (Some Demo.task) false) (λ _, true) d).2
        = delete "target_item" d.
Proof.
  split.
  - destruct (prepare_input (Demo.model (Some Demo.task) true) Demo.raw_batch)
      as [d|e] eqn:E; [|discriminate E].
    exists d. split; [done|].
    destruct (prepare_then_valid_step ["eval"] _ (λ _, true) _ _ Demo.task E eq_refl)
      as [Htrain _].
    by apply Htrain.
  - destruct (prepare_input (Demo.model (Some Demo.task) false) Demo.raw_batch)
      as [d|e] eqn:E; [|discriminate E].
    exists d. split; [done|].
    destruct (prepare_then_valid_step ["eval"] _ (λ _, true) _ _ Demo.task E eq_refl)
      as [_ Heval].
    destruct Heval as (t & _ & Hpop & _); [reflexivity|]. exact Hpop.
Defined.

(** X6. [valid_step] cannot be run twice on the same batch: with an
    evaluation task set, whatever the first call did, a second call on the
    batch it left raises [KeyError] for ["target_item"] and changes nothing
    more. *)
Theorem valid_step_not_repeatable (cfg : InjectPersonalization) (self : T5FineTuned)
    (keep keep' : nat → bool) (batch : gmap string value) (task : Task) :
  eval_task self = Some task →
  valid_step cfg self keep' (valid_step cfg self keep batch).2
  = (Raise (KeyError "target_item"), (valid_step cfg self keep batch).2).
Proof.
  intros Hev. unfold valid_step. rewrite Hev.
  destruct (batch !! "target_item") as [t|] eqn:Ht; simpl.
  - by rewrite lookup_delete_eq.
  - by rewrite Ht.
Qed.

Lemma valid_step_not_repeatable_witness :
  is_Ok (valid_step ["eval"] (Demo.model (Some Demo.task) false) (λ _, true) Demo.batch).1
  ∧ valid_step ["eval"] (Demo.model (Some Demo.task) false) (λ _, true)
      (valid_step ["eval"] (Demo.model (Some Demo.task) false) (λ _, true) Demo.batch).2
    = (Raise (KeyError "target_item"),
       (valid_step ["eval"] (Demo.model (Some Demo.task) false) (λ _, true) Demo.batch).2).
Proof.
  split; [eexists; vm_compute; reflexivity|].
  exact (valid_step_not_repeatable ["eval"] (Demo.model (Some Demo.task) false)
           (λ _, true) (λ _, true) Demo.batch Demo.task eq_refl).
Defined.

(** The evaluation task is only a guard for [valid_step]: which task is
    set makes no difference to what it returns or to the batch it leaves. *)
Lemma valid_step_eval_task_is_a_guard (cfg : InjectPersonalization)
    (self : T5FineTuned) (keep : nat → bool) (batch : gmap string value)
    (task1 task2 : Task) :
  valid_step cfg (set_eval_task self task1) keep batch
  = valid_step cfg (set_eval_task self task2) keep batch.
Proof. reflexivity. Qed.

Lemma embed_inputs_insert_other (cfg : InjectPersonalization) (phase : string)
    (self : T5FineTuned) (keep : nat → bool) (batch : gmap string value)
    (k : string) (v : option value) :
  k ≠ "input_ids" → k ≠ "user_idx" →
  embed_inputs cfg phase self keep (partial_alter (λ _, v) k batch)
  = embed_inputs cfg phase self keep batch.
Proof.
  intros H1 H2. unfold embed_inputs, getitem.
  by rewrite !lookup_partial_alter_ne.
Qed.

Lemma steps_ignore_whole_word_ids_alter (cfg : InjectPersonalization)
    (self : T5FineTuned) (keep : nat → bool) (batch : gmap string value)
    (v : option value) :
  train_step cfg self keep (partial_alter (λ _, v) "whole_word_ids" batch)
  = train_step cfg self keep batch
  ∧ (valid_step cfg self keep (partial_alter (λ _, v) "whole_word_ids" batch)).1
    = (valid_step cfg self keep batch).1.
Proof.
  split.
  - unfold train_step, getitem.
    rewrite embed_inputs_insert_other by done.
    by rewrite !lookup_partial_alter_ne.
  - unfold valid_step. destruct (eval_task self); [|done].
    rewrite lookup_partial_alter_ne by done.
    destruct (batch !! "target_item") as [target_text|]; [|done]. simpl.
    unfold valid_step_body, getitem.
    rewrite delete_partial_alter_ne by done.
    rewrite embed_inputs_insert_other by done.
    by rewrite !lookup_partial_alter_ne.
Qed.

(** X7. The whole-word ids are carried through the batch but read by
    neither step: replacing or removing ["whole_word_ids"] changes neither
    the training loss nor what [valid_step] returns. *)
Theorem steps_ignore_whole_word_ids (cfg : InjectPersonalization)
    (self : T5FineTuned) (keep : nat → bool) (batch : gmap string value)
    (v : value) :
  train_step cfg self keep (<["whole_word_ids" := v]> batch)
  = train_step cfg self keep batch
  ∧ train_step cfg self keep (delete "whole_word_ids" batch)
    = train_step cfg self keep batch
  ∧ (valid_step cfg self keep (<["whole_word_ids" := v]> batch)).1
    = (valid_step cfg self keep batch).1
  ∧ (valid_step cfg self keep (delete "whole_word_ids" batch)).1
    = (valid_step cfg self keep batch).1.
Proof.
  destruct (steps_ignore_whole_word_ids_alter cfg self keep batch (Some v)) as [H1 H2].
  destruct (steps_ignore_whole_word_ids_alter cfg self keep batch None) as [H3 H4].
  done.
Qed.

(** X8. When the personalization flag does not list ["train"], the training
    loss is the same for any two values of the user-embedding parameters
    and any dropout draws. *)
Theorem train_step_ignores_user_embeddings (cfg : InjectPersonalization)
    (self : T5FineTuned) (ue1 ue2 : UserEmbeds) (keep1 keep2 : nat → bool)
    (batch : gmap string value) :
  "train" ∉ cfg →
  train_step cfg (with_user_embeddings self ue1) keep1 batch
  = train_step cfg (with_user_embeddings self ue2) keep2 batch.
Proof.
  intros Hcfg. unfold train_step, embed_inputs. simpl.
  by rewrite (bool_decide_eq_false_2 _ Hcfg).
Qed.

Lemma train_step_ignores_user_embeddings_witness :
  ("train" ∉ ["eval"])
  ∧ train_step ["eval"]
      (with_user_embeddings (Demo.model None true) (UserEmbeds_init 3 2 Demo.init))
      (λ _, true) Demo.batch
    = train_step ["eval"]
      (with_user_embeddings (Demo.model None true) (UserEmbeds_init 0 2 Demo.init))
      (λ _, false) Demo.batch.
Proof.
  assert ("train" ∉ ["eval"]) as H.
  { intros Hin. apply elem_of_cons in Hin as [Hin|Hin]; [discriminate|].
    by apply elem_of_nil in Hin. }
  split; [exact H|].
  exact (train_step_ignores_user_embeddings ["eval"] _ _ _ _ _ Demo.batch H).
Defined.



(** X10. When [generate] returns a number of sequences other than ten per
    target item, [valid_step] raises the [ValueError] of the reshape, after
    the target items have been popped from the batch. *)
Theorem valid_step_wrong_generation_count (cfg : InjectPersonalization)
    (self : T5FineTuned) (keep : nat → bool) (batch : gmap string value)
    (task : Task) (target_text : value)
    (inputs_embeds : list (list (list Q))) (attention_mask labels : list (list Z))
    (val_loss : Q) (beam_outputs : list (list Z)) :
  eval_task self = Some task →
  batch !! "target_item" = Some target_text →
  embed_inputs cfg "eval" self keep (delete "target_item" batch) = Ok inputs_embeds →
  batch !! "attention_mask" = Some (VTensor2 attention_mask) →
  batch !! "labels" = Some (VTensor2 labels) →
  forward (base self) (training self) inputs_embeds attention_mask labels = Ok val_loss →
  generate (base self) (training self) inputs_embeds attention_mask
    valid_generation_config = Ok beam_outputs →
  length beam_outputs ≠ (value_len target_text * 10)%nat →
  valid_step cfg self keep batch
  = (Raise (ValueError "cannot reshape array"), delete "target_item" batch).
Proof.
  intros Hev Ht Hemb Ham Hlab Hfwd Hgen Hlen.
  unfold valid_step. rewrite Hev, Ht. simpl. f_equal.
  unfold valid_step_body, getitem. rewrite Hemb. simpl.
  rewrite !lookup_delete_ne, Ham, Hlab by done. simpl.
  rewrite Hfwd. simpl. rewrite Hgen. simpl.
  unfold np_reshape2. rewrite length_fmap.
  destruct (Nat.eqb_spec (length beam_outputs) (value_len target_text * 10)); done.
Qed.

Lemma valid_step_wrong_generation_count_witness :
  valid_step ["eval"] DemoMore.short_model (λ _, true) Demo.batch
  = (Raise (ValueError "cannot reshape array"), delete "target_item" Demo.batch).
Proof.
  apply (valid_step_wrong_generation_count ["eval"] DemoMore.short_model (λ _, true)
           Demo.batch Demo.task (VStrs ["item_42"; "item_7"]) Demo.inputs_embeds
           [[1; 1; 1]; [1; 1; 0]]%Z [[3; 1; -100]; [2; -100; 1]]%Z (1 # 2)
           ((λ k : nat, [Z.of_nat k]) <$> seq 0 2)); try reflexivity.
  simpl. lia.
Defined.

(** ** Indices out of range *)

Lemma result_mapM_Raise {A B} (f : A → result B) (l : list A) (x : A) (err : exn) :
  (∀ y e, f y = Raise e → e = err) →
  x ∈ l → is_Raise (f x) → result_mapM f l = Raise err.
Proof.
  intros Herr Hx [e He]. induction l as [|y l IH]; [by apply elem_of_nil in Hx|].
  simpl. destruct (f y) as [b|e'] eqn:Hy; simpl.
  - apply elem_of_cons in Hx as [->|Hx]; [congruence|].
    by rewrite (IH Hx).
  - by rewrite (Herr _ _ Hy).
Qed.

Lemma embedding_row_Raise {A} (weight : list A) (i : Z) (e : exn) :
  embedding_row weight i = Raise e → e = IndexError "index out of range in self".
Proof.
  unfold embedding_row. destruct (0 <=? i)%Z; [|by inversion 1].
  destruct (weight !! Z.to_nat i); [done|by inversion 1].
Qed.

Lemma embedding_Raise {A} (weight : list A) (idx : list Z) (i : Z) :
  i ∈ idx → ¬ (0 ≤ i < Z.of_nat (length weight))%Z →
  embedding weight idx = Raise (IndexError "index out of range in self").
Proof.
  intros Hi Hout. unfold embedding.
  apply (result_mapM_Raise _ _ i); [apply embedding_row_Raise|done|].
  destruct (embedding_row weight i) as [row|e] eqn:E; [|by eexists].
  exfalso. apply Hout, embedding_row_in_range. by eexists.
Qed.

Lemma embedding_Ok_iff {A} (weight : list A) (idx : list Z) :
  is_Ok (embedding weight idx)
  ↔ Forall (λ i : Z, (0 ≤ i < Z.of_nat (length weight))%Z) idx.
Proof.
  split; [|apply embedding_Ok].
  intros [x H]. apply Forall_forall. intros i Hi.
  apply list_elem_of_lookup in Hi as [b Hb].
  apply embedding_inv in H as [_ H]. by destruct (H b i Hb).
Qed.

Lemma embedding2_Raise {A} (weight : list A) (ids : list (list Z))
    (row : list Z) (i : Z) :
  row ∈ ids → i ∈ row → ¬ (0 ≤ i < Z.of_nat (length weight))%Z →
  embedding2 weight ids = Raise (IndexError "index out of range in self").
Proof.
  intros Hrow Hi Hout. unfold embedding2.
  apply (result_mapM_Raise _ _ row); [|done|].
  - intros y e Hy. unfold embedding in Hy.
    destruct (embedding_Ok_iff weight y) as [_ Hok].
    destruct (decide (Forall (λ i : Z, (0 ≤ i < Z.of_nat (length weight))%Z) y))
      as [Hall|Hnot].
    + destruct (Hok Hall) as [x Hx]. unfold embedding in Hx. congruence.
    + apply not_Forall_Exists in Hnot; [|solve_decision].
      apply Exists_exists in Hnot as (j & Hj & Hjout).
      pose proof (embedding_Raise weight y j Hj Hjout) as Hr.
      unfold embedding in Hr. congruence.
  - rewrite (embedding_Raise weight row i Hi Hout). by eexists.
Qed.

(** X11. A token id outside the vocabulary of the shared embedding table,
    anywhere in ["input_ids"], makes both steps raise [IndexError]:
    [train_step] at once, [valid_step] after it has popped the target
    items.  When every id is in the vocabulary the table lookup returns one
    row per token. *)
Theorem steps_reject_out_of_vocabulary (cfg : InjectPersonalization)
    (self : T5FineTuned) (keep : nat → bool) (batch : gmap string value)
    (ids : list (list Z)) :
  batch !! "input_ids" = Some (VTensor2 ids) →
  (∀ (row : list Z) (i : Z), row ∈ ids → i ∈ row → ¬ in_vocabulary self i →
     train_step cfg self keep batch = Raise (IndexError "index out of range in self")
     ∧ ∀ task target_text,
         eval_task self = Some task → batch !! "target_item" = Some target_text →
         valid_step cfg self keep batch
         = (Raise (IndexError "index out of range in self"),
            delete "target_item" batch))
  ∧ (Forall (Forall (in_vocabulary self)) ids →
     ∃ embeds, embedding2 (weight (shared (base self))) ids = Ok embeds
       ∧ Forall2 (λ (row : list Z) (e : list (list Q)), length e = length row) ids embeds).
Proof.
  intros Hids. split.
  - intros row i Hrow Hi Hout.
    pose proof (embedding2_Raise (weight (shared (base self))) ids row i Hrow Hi Hout) as Hr.
    split.
    + unfold train_step, embed_inputs, getitem. rewrite Hids. simpl. by rewrite Hr.
    + intros task target_text Hev Ht. unfold valid_step. rewrite Hev, Ht. simpl.
      f_equal. unfold valid_step_body, embed_inputs, getitem.
      rewrite !lookup_delete_ne by done. rewrite Hids. simpl. by rewrite Hr.
  - intros Hall. clear Hids. unfold embedding2.
    induction Hall as [|row ids' Hrow _ IH]; [by exists []|].
    destruct (embedding_Ok (weight (shared (base self))) row Hrow) as [e He].
    destruct IH as (es & Hes & Hshape).
    exists (e :: es). simpl. rewrite He. simpl. rewrite Hes. simpl.
    split; [done|]. constructor; [|done].
    by apply embedding_inv in He as [-> _].
Qed.

Lemma steps_reject_out_of_vocabulary_witness :
  train_step ["train"] (Demo.model None true) (λ _, true)
    (<["input_ids" := VTensor2 [[2; 7]]%Z]> Demo.batch)
  = Raise (IndexError "index out of range in self").
Proof.
  destruct (steps_reject_out_of_vocabulary ["train"] (Demo.model None true) (λ _, true)
              (<["input_ids" := VTensor2 [[2; 7]]%Z]> Demo.batch) [[2; 7]]%Z
              (lookup_insert_eq _ _ _))
    as [Hbad _].
  destruct (Hbad [2; 7]%Z 7%Z) as [Htrain _]; [by left | by right; left | | exact Htrain].
  unfold in_vocabulary. simpl. lia.
Defined.

(** ** Personalization over a whole batch *)

Lemma UserEmbeds_call_length (self : UserEmbeds) (training : bool)
    (keep : nat → bool) (user_idx : list Z) (out : list (list Q)) :
  UserEmbeds_call self training keep user_idx = Ok out →
  length out = length user_idx.
Proof.
  unfold UserEmbeds_call. intros H. bind_inv H. inversion H; subst.
  by rewrite length_fmap, permute_1_0_length.
Qed.

Lemma UserEmbeds_call_embedding (self : UserEmbeds) (training : bool)
    (keep : nat → bool) (user_idx : list Z) (out : list (list Q)) :
  UserEmbeds_call self training keep user_idx = Ok out →
  ∃ x, embedding (weight (emb_layer self)) user_idx = Ok x.
Proof. unfold UserEmbeds_call. intros H. bind_inv H. eauto. Qed.

(** X12. One user index out of range fails the whole batch: with a user
    index per sample, [_inject_personalization] returns exactly when every
    index lies in [1 .. n_users], and raises [IndexError] as soon as one
    does not. *)
Theorem inject_personalization_batch_bounds (self : T5FineTuned)
    (keep : nat → bool) (tok : list (list (list Q))) (user_idxs : list Z) :
  Embedding_wf (emb_layer (user_embeddings self)) →
  num_embeddings (emb_layer (user_embeddings self)) = n_users self →
  (Z.of_nat (n_users self) ≤ int64_max)%Z →
  Forall (λ u : Z, (int64_min ≤ u ≤ int64_max)%Z) user_idxs →
  length user_idxs = length tok →
  Forall (Forall (λ t : list Q,
            length t = embedding_dim (emb_layer (user_embeddings self)))) tok →
  (is_Ok (_inject_personalization self keep tok user_idxs)
   ↔ Forall (valid_user_idx self) user_idxs)
  ∧ ∀ u, u ∈ user_idxs → ¬ valid_user_idx self u →
      _inject_personalization self keep tok user_idxs
      = Raise (IndexError "index out of range in self").
Proof.
  intros Hwf Hn Hmax Hint Hlen Htok.
  pose proof Hwf as [Hrows _]. rewrite Hn in Hrows.
  assert (∀ u, u ∈ user_idxs →
    (0 ≤ wrap_int64 (u - 1) < Z.of_nat (length (weight (emb_layer (user_embeddings self)))))%Z
    ↔ valid_user_idx self u) as Hshift.
  { intros u Hu. rewrite Hrows. apply shifted_index_in_range; [done|].
    rewrite Forall_forall in Hint. by apply Hint. }
  split.
  - rewrite inject_personalization_is_Ok by done.
    rewrite embedding_Ok_iff, Forall_fmap, !Forall_forall.
    split; intros H u Hu; apply (Hshift u Hu), H, Hu.
  - intros u Hu Hbad. unfold _inject_personalization, UserEmbeds_call.
    rewrite (embedding_Raise _ _ (wrap_int64 (u - 1))); [done| |].
    + apply list_elem_of_fmap. by exists u.
    + intros Hin. by apply Hbad, (Hshift u Hu).
Qed.

Lemma inject_personalization_batch_bounds_witness :
  is_Ok (_inject_personalization (Demo.model None false) (λ _, true)
           [[[7; 0]]; [[1; 1]; [2; 2]]]%Q [3; 1]%Z)
  ∧ _inject_personalization (Demo.model None false) (λ _, true)
      [[[7; 0]]; [[1; 1]; [2; 2]]]%Q [3; 0]%Z
    = Raise (IndexError "index out of range in self").
Proof.
  destruct (T5FineTuned_init_user_table Demo.t5 Demo.tok 2 3 [Demo.task] None
              Demo.init false) as (Hwf & Hn & _).
  assert (Z.of_nat (n_users (Demo.model None false)) ≤ int64_max)%Z as Hmax
    by (unfold int64_max; simpl; lia).
  assert (∀ a b : Z, (-5 ≤ a ≤ 5)%Z → (-5 ≤ b ≤ 5)%Z →
            Forall (λ u : Z, (int64_min ≤ u ≤ int64_max)%Z) [a; b]) as Hint.
  { intros a b Ha Hb. unfold int64_min, int64_max. repeat constructor; lia. }
  assert (Forall (Forall (λ t : list Q,
            length t = embedding_dim (emb_layer (user_embeddings (Demo.model None false)))))
            [[[7; 0]]; [[1; 1]; [2; 2]]]%Q) as Htok by repeat constructor.
  split.
  - destruct (inject_personalization_batch_bounds (Demo.model None false) (λ _, true)
                [[[7; 0]]; [[1; 1]; [2; 2]]]%Q [3; 1]%Z Hwf Hn Hmax) as [Hiff _];
      [apply Hint; lia|done|exact Htok|].
    apply Hiff. unfold valid_user_idx. repeat constructor; simpl; lia.
  - destruct (inject_personalization_batch_bounds (Demo.model None false) (λ _, true)
                [[[7; 0]]; [[1; 1]; [2; 2]]]%Q [3; 0]%Z Hwf Hn Hmax) as [_ Hbad];
      [apply Hint; lia|done|exact Htok|].
    apply (Hbad 0%Z); [by right; left|]. unfold valid_user_idx. lia.
Defined.

(** X13. Within one call, two samples with the same user index get the same
    user vector, in training mode too: the dropout noise is drawn per
    dimension, not per sample. *)
Theorem same_user_same_embedding (self : UserEmbeds) (training : bool)
    (keep : nat → bool) (user_idx : list Z) (out : list (list Q))
    (a b : nat) (u : Z) :
  Embedding_wf (emb_layer self) →
  UserEmbeds_call self training keep user_idx = Ok out →
  user_idx !! a = Some u → user_idx !! b = Some u →
  is_Some (out !! a) ∧ out !! a = out !! b.
Proof.
  intros Hwf Hout Ha Hb.
  destruct (UserEmbeds_call_embedding _ _ _ _ _ Hout) as [x Hx].
  destruct (UserEmbeds_call_lookup self training keep user_idx x Hwf Hx)
    as (out' & Hout' & Hlen & Hrows & Hpos).
  assert (out' = out) as -> by congruence.
  pose proof (embedding_rows_wf _ _ _ Hwf Hx) as Hxrows.
  apply embedding_inv in Hx as [Hxlen Hx].
  destruct (Hx a u Ha) as [_ Hxa]. destruct (Hx b u Hb) as [_ Hxb].
  destruct (lookup_lt_is_Some_2 out a) as [ra Hra].
  { rewrite Hlen. by eapply lookup_lt_Some. }
  destruct (lookup_lt_is_Some_2 out b) as [rb Hrb].
  { rewrite Hlen. by eapply lookup_lt_Some. }
  split; [by eexists|]. rewrite Hra, Hrb. f_equal.
  rewrite Forall_forall in Hrows.
  assert (length ra = embedding_dim (emb_layer self)) as Hla
    by (apply Hrows; by eapply list_elem_of_lookup_2).
  assert (length rb = embedding_dim (emb_layer self)) as Hlb
    by (apply Hrows; by eapply list_elem_of_lookup_2).
  destruct (lookup_lt_is_Some_2 x a) as [xr Hxr].
  { rewrite Hxlen. by eapply lookup_lt_Some. }
  assert (length xr = embedding_dim (emb_layer self)) as Hlx.
  { rewrite Forall_forall in Hxrows. apply Hxrows. by eapply list_elem_of_lookup_2. }
  apply list_eq. intros j.
  destruct (decide (j < embedding_dim (emb_layer self))%nat) as [Hj|Hj].
  - destruct (lookup_lt_is_Some_2 xr j) as [v Hv]; [lia|].
    assert (x !! b = Some xr) as Hxr' by congruence.
    pose proof (Hpos a j v) as Pa. pose proof (Hpos b j v) as Pb.
    rewrite Hxr, Hra in Pa. rewrite Hxr', Hrb in Pb. simpl in Pa, Pb.
    by rewrite (Pa Hv), (Pb Hv).
  - rewrite !(proj2 (lookup_ge_None _ _)) by lia. done.
Qed.

Lemma same_user_same_embedding_witness :
  ∃ out, UserEmbeds_call (UserEmbeds_init 3 2 Demo.init) true
           (λ j, bool_decide (j = 1%nat)) [2; 0; 2]%Z = Ok out
    ∧ is_Some (out !! 0%nat) ∧ out !! 0%nat = out !! 2%nat.
Proof.
  destruct (UserEmbeds_call (UserEmbeds_init 3 2 Demo.init) true
              (λ j, bool_decide (j = 1%nat)) [2; 0; 2]%Z) as [out|e] eqn:E;
    [|discriminate E].
  exists out. split; [done|].
  exact (same_user_same_embedding (UserEmbeds_init 3 2 Demo.init) _ _ _ out 0 2 2%Z
           (Embedding_init_wf 3 2 Demo.init) E eq_refl eq_refl).
Defined.

Lemma tensor3_add_single_user (tok : list (list (list Q))) (uvec : list Q) :
  Forall (Forall (λ t : list Q, length t = length uvec)) tok →
  tensor3_add tok [[uvec]]
  = Ok ((λ sample : list (list Q), (λ t : list Q, zip_with Qplus t uvec) <$> sample)
        <$> tok).
Proof.
  intros Htok. unfold tensor3_add. rewrite broadcast_zip_singleton.
  apply result_mapM_Ok. intros sample Hs. apply sequence_add_Ok.
  rewrite Forall_forall in Htok. by apply Htok.
Qed.

(** X14. A single user index with a batch of any size is not refused: the
    one user vector is broadcast, and every token of every sample gets it
    added. *)
Theorem inject_personalization_single_user (self : T5FineTuned)
    (keep : nat → bool) (tok : list (list (list Q))) (u : Z)
    (user_embeds : list (list Q)) :
  Embedding_wf (emb_layer (user_embeddings self)) →
  Forall (Forall (λ t : list Q,
            length t = embedding_dim (emb_layer (user_embeddings self)))) tok →
  UserEmbeds_call (user_embeddings self) (training self) keep [wrap_int64 (u - 1)]
  = Ok user_embeds →
  ∃ uvec out,
    user_embeds = [uvec]
    ∧ _inject_personalization self keep tok [u] = Ok out
    ∧ length out = length tok
    ∧ ∀ (b s d : nat) (t : Q), entry3 tok b s d = Some t →
        ∃ x, uvec !! d = Some x ∧ entry3 out b s d = Some (t + x)%Q.
Proof.
  intros Hwf Htok Hue.
  destruct (UserEmbeds_call_embedding _ _ _ _ _ Hue) as [x Hx].
  destruct (UserEmbeds_call_lookup _ (training self) keep _ x Hwf Hx)
    as (ue & Hue' & Hlen & Hrows & _).
  assert (ue = user_embeds) as -> by congruence.
  destruct user_embeds as [|uvec [|? ?]]; try done.
  rewrite Forall_singleton in Hrows.
  assert (Forall (Forall (λ t : list Q, length t = length uvec)) tok) as Htok'.
  { eapply Forall_impl; [exact Htok|]. intros sample Hs.
    eapply Forall_impl; [exact Hs|]. intros t0 Ht0. simpl in *. congruence. }
  eexists uvec, _. split; [done|]. split; [|split].
  - unfold _inject_personalization. simpl. rewrite Hue. simpl.
    by apply tensor3_add_single_user.
  - by rewrite length_fmap.
  - intros b s d t Ht. unfold entry3 in *. rewrite list_lookup_fmap.
    destruct (tok !! b) as [sample|] eqn:Hb; [|done]. simpl in *.
    rewrite list_lookup_fmap.
    destruct (sample !! s) as [tv|] eqn:Hs; [|done]. simpl in *.
    destruct (lookup_lt_is_Some_2 uvec d) as [x' Hx'].
    { rewrite Hrows. rewrite Forall_forall in Htok.
      assert (Forall (λ t0 : list Q,
                length t0 = embedding_dim (emb_layer (user_embeddings self))) sample)
        as Hsample by (apply Htok; by eapply list_elem_of_lookup_2).
      rewrite Forall_forall in Hsample. rewrite <- (Hsample tv).
      - by eapply lookup_lt_Some.
      - by eapply list_elem_of_lookup_2. }
    exists x'. split; [done|]. by rewrite lookup_zip_with, Ht, Hx'.
Qed.

Lemma inject_personalization_single_user_witness :
  ∃ out, _inject_personalization (Demo.model None false) (λ _, true)
           [[[7; 0]]; [[1; 1]; [2; 2]]]%Q [3]%Z = Ok out
    ∧ length out = 2%nat
    ∧ entry3 out 0 0 0 = Some (7 + 15)%Q
    ∧ entry3 out 1 1 1 = Some (2 + 16)%Q.
Proof.
  destruct (inject_personalization_single_user (Demo.model None false) (λ _, true)
              [[[7; 0]]; [[1; 1]; [2; 2]]]%Q 3%Z [[15; 16]]%Q
              (Embedding_init_wf 3 2 Demo.init))
    as (uvec & out & Hu & Hout & Hlen & Hpos).
  - repeat constructor.
  - reflexivity.
  - inversion Hu; subst uvec.
    exists out. split; [exact Hout|]. split; [exact Hlen|]. split.
    + destruct (Hpos 0%nat 0%nat 0%nat 7%Q eq_refl) as (x & Hx & Ho).
      inversion Hx; subst x. exact Ho.
    + destruct (Hpos 1%nat 1%nat 1%nat 2%Q eq_refl) as (x & Hx & Ho).
      inversion Hx; subst x. exact Ho.
Defined.

Lemma broadcast_zip_mismatch {A B C} (f : A → B → result C) (a : list A) (b : list B) :
  length a ≠ length b → length a ≠ 1%nat → length b ≠ 1%nat →
  broadcast_zip f a b = Raise (RuntimeError "the sizes of the tensors must match").
Proof.
  intros Hab Ha Hb. unfold broadcast_zip.
  destruct (Nat.eqb_spec (length a) (length b)) as [|_]; [done|].
  by destruct a as [|x [|x' a]], b as [|y [|y' b]].
Qed.

(** X15. A number of user indices that is neither the number of samples nor
    one, for a batch of more than one sample, is a shape error: once the
    table lookup has succeeded the addition raises [RuntimeError]. *)
Theorem inject_personalization_shape_mismatch (self : T5FineTuned)
    (keep : nat → bool) (tok : list (list (list Q))) (user_idxs : list Z)
    (user_embeds : list (list Q)) :
  UserEmbeds_call (user_embeddings self) (training self) keep
    ((λ u : Z, wrap_int64 (u - 1)) <$> user_idxs) = Ok user_embeds →
  length user_idxs ≠ length tok →
  length user_idxs ≠ 1%nat →
  length tok ≠ 1%nat →
  _inject_personalization self keep tok user_idxs
  = Raise (RuntimeError "the sizes of the tensors must match").
Proof.
  intros Hue Hne H1 H2. unfold _inject_personalization. rewrite Hue. simpl.
  apply UserEmbeds_call_length in Hue. rewrite length_fmap in Hue.
  unfold tensor3_add. apply broadcast_zip_mismatch; rewrite ?length_fmap; congruence.
Qed.

Lemma inject_personalization_shape_mismatch_witness :
  _inject_personalization (Demo.model None false) (λ _, true)
    [[[7; 0]]; [[1; 1]; [2; 2]]; [[0; 0]]]%Q [3; 1]%Z
  = Raise (RuntimeError "the sizes of the tensors must match").
Proof.
  eapply (inject_personalization_shape_mismatch (Demo.model None false) (λ _, true)
            [[[7; 0]]; [[1; 1]; [2; 2]]; [[0; 0]]]%Q [3; 1]%Z);
    [vm_compute; reflexivity | simpl; lia..].
Defined.

(** ** [tokenize], end to end *)

Lemma tokenize_encoded_Ok_inv (self : T5FineTuned) (rnd : nat)
    (sample : gmap string (list pyval)) (l : list EncodedSequence) :
  tokenize_encoded self rnd sample = Ok l →
  ∃ uid kwargs task templates,
    sample !! "user_id" = Some [uid]
    ∧ unbatch sample = Ok kwargs
    ∧ (if training self
       then training_tasks self !! (rnd mod length (training_tasks self))%nat = Some task
       else eval_task self = Some task)
    ∧ task kwargs = Ok templates
    ∧ result_mapM (encode_template self kwargs) templates = Ok l.
Proof.
  unfold tokenize_encoded, getitem. intros H.
  destruct (sample !! "user_id") as [[|uid [|uid' ids]]|]; try done. simpl in H.
  apply bind_Ok in H as (kwargs & Hk & H).
  apply bind_Ok in H as (task & Ht & H).
  apply bind_Ok in H as (templates & Hc & H).
  destruct task as [task|]; [|done]. simpl in Hc.
  exists uid, kwargs, task, templates. split_and!; try done.
  destruct (training self).
  - unfold random_choice in Ht.
    destruct (training_tasks self !! (rnd mod length (training_tasks self))%nat);
      [|done].
    simpl in Ht. by inversion Ht.
  - by inversion Ht.
Qed.

Lemma unbatch_Ok_inv (sample : gmap string (list pyval)) (kwargs : gmap string pyval) :
  unbatch sample = Ok kwargs →
  map_Forall (λ (_ : string) (v : list pyval), v ≠ []) sample
  ∧ ∀ k, kwargs !! k = sample !! k ≫= head.
Proof.
  unfold unbatch. case_bool_decide as Hall; [|done]. intros H. inversion H; subst.
  split; [done|]. intros k. by rewrite lookup_omap.
Qed.

(** X16. [tokenize] takes one sample at a time: without a ["user_id"] field
    it raises [KeyError], with a ["user_id"] column of any length but one
    it raises the assertion error, whatever the mode and the tasks; and
    when it returns, the sample had exactly one user id and no empty
    column. *)
Theorem tokenize_batch_size_guard (self : T5FineTuned) (rnd : nat)
    (sample : gmap string (list pyval)) :
  (sample !! "user_id" = None →
     tokenize self rnd sample = Raise (KeyError "user_id"))
  ∧ (∀ user_ids, sample !! "user_id" = Some user_ids → length user_ids ≠ 1%nat →
       tokenize self rnd sample = Raise (AssertionError "set batch_size to map fn to 1"))
  ∧ (∀ d, tokenize self rnd sample = Ok d →
       (∃ uid, sample !! "user_id" = Some [uid])
       ∧ map_Forall (λ (_ : string) (v : list pyval), v ≠ []) sample).
Proof.
  split_and!.
  - intros H. unfold tokenize, tokenize_encoded, getitem. by rewrite H.
  - intros user_ids H Hlen. unfold tokenize, tokenize_encoded, getitem. rewrite H. simpl.
    destruct (Nat.eqb_spec (length user_ids) 1); done.
  - intros d H. unfold tokenize in H. apply bind_Ok in H as (l & Hl & _).
    apply tokenize_encoded_Ok_inv in Hl as (uid & kwargs & _ & _ & Hu & Hk & _).
    split; [by eexists|]. by apply unbatch_Ok_inv in Hk as [? _].
Qed.

(** What [merge_with(list, ...)] holds under a key: the values of the dicts
    that have the key, in order, and nothing when none has it. *)
Lemma merge_with_list_lookup_all {V} (dicts : list (gmap string V)) (k : string) :
  merge_with_list dicts !! k
  = match omap (λ d : gmap string V, d !! k) dicts with
    | [] => None
    | vs => Some vs
    end.
Proof.
  induction dicts as [|d dicts IH]; [done|].
  assert (omap (λ d0 : gmap string V, d0 !! k) (d :: dicts)
          = match d !! k with
            | Some v => v :: omap (λ d0 : gmap string V, d0 !! k) dicts
            | None => omap (λ d0 : gmap string V, d0 !! k) dicts
            end) as -> by done.
  unfold merge_with_list in *. cbn [foldr]. rewrite lookup_merge, IH.
  destruct (d !! k) as [v|], (omap (λ d0 : gmap string V, d0 !! k) dicts); done.
Qed.

Lemma encoded_items_lookup (e : EncodedSequence) (k : string) :
  (k ∈ encoded_keys → is_Some (encoded_items e !! k))
  ∧ (k ∉ encoded_keys → encoded_items e !! k = None).
Proof.
  unfold encoded_keys, encoded_items. split.
  - intros Hk. repeat (apply elem_of_cons in Hk as [->|Hk]; [by simplify_map_eq|]).
    by apply elem_of_nil in Hk.
  - intros Hk. rewrite !lookup_insert_ne, lookup_empty; [done|..];
      intros <-; apply Hk; repeat (first [by left | right]).
Qed.

Lemma omap_encoded_items_length (l : list EncodedSequence) (k : string) :
  length (omap (λ d : gmap string evalue, d !! k) (encoded_items <$> l))
  = if decide (k ∈ encoded_keys) then length l else 0%nat.
Proof.
  induction l as [|e l IH]; [by case_decide|].
  rewrite fmap_cons.
  assert (omap (λ d : gmap string evalue, d !! k) (encoded_items e :: (encoded_items <$> l))
          = match encoded_items e !! k with
            | Some v => v :: omap (λ d : gmap string evalue, d !! k) (encoded_items <$> l)
            | None => omap (λ d : gmap string evalue, d !! k) (encoded_items <$> l)
            end) as -> by done.
  destruct (encoded_items_lookup e k) as [Hin Hout].
  case_decide as Hk.
  - destruct (Hin Hk) as [v ->]. cbn [length]. by rewrite IH.
  - by rewrite (Hout Hk), IH.
Qed.

(** X17. The dict [tokenize] returns for a task that produced [k]
    templates: with [k ≥ 1] it has exactly the six fields, each a list of
    length [k]; with no template it is the empty dict.  The task is the
    evaluation task outside training mode and the drawn training task in
    training mode. *)
Theorem tokenize_field_lengths (self : T5FineTuned) (rnd : nat)
    (sample : gmap string (list pyval)) (d : gmap string (list evalue)) :
  tokenize self rnd sample = Ok d →
  ∃ task kwargs templates,
    (if training self
     then training_tasks self !! (rnd mod length (training_tasks self))%nat = Some task
     else eval_task self = Some task)
    ∧ unbatch sample = Ok kwargs
    ∧ task kwargs = Ok templates
    ∧ (templates = [] → d = ∅)
    ∧ (templates ≠ [] → ∀ key, is_Some (d !! key) ↔ key ∈ encoded_keys)
    ∧ ∀ key v, d !! key = Some v → length v = length templates.
Proof.
  intros H. unfold tokenize in H. apply bind_Ok in H as (l & Hl & H).
  inversion H; subst d. clear H.
  apply tokenize_encoded_Ok_inv in Hl as (uid & kwargs & task & templates & _ & Hk & Ht & Hc & Hm).
  pose proof (result_mapM_length _ _ _ Hm) as Hlen.
  exists task, kwargs, templates. split_and!; try done.
  - intros ->. destruct l; [done|discriminate Hlen].
  - intros Hne key. rewrite merge_with_list_lookup_all.
    pose proof (omap_encoded_items_length l key) as Ho.
    destruct (omap _ (encoded_items <$> l)) as [|v vs] eqn:E; simpl in Ho.
    + case_decide as Hkey.
      * destruct templates; [done|]. rewrite Hlen in Ho. discriminate Ho.
      * split; [by intros [? ?]|done].
    + case_decide as Hkey; [|discriminate Ho]. split; [done|by eexists].
  - intros key v Hv. rewrite merge_with_list_lookup_all in Hv.
    pose proof (omap_encoded_items_length l key) as Ho.
    destruct (omap _ (encoded_items <$> l)) as [|v' vs] eqn:E; [done|].
    inversion Hv; subst v. case_decide; [congruence|discriminate Ho].
Qed.

Lemma tokenize_field_lengths_witness :
  (∃ d, tokenize (train (set_eval_task (Demo.model None false) DemoMore.strict_task) false)
          0 DemoMore.sample_with_history = Ok d
     ∧ ∀ key v, d !! key = Some v → length v = 2%nat)
  ∧ tokenize (train (set_eval_task (Demo.model None false) DemoMore.silent_task) false)
      0 Demo.sample = Ok ∅.
Proof.
  split.
  - destruct (tokenize (train (set_eval_task (Demo.model None false) DemoMore.strict_task)
                          false) 0 DemoMore.sample_with_history) as [d|e] eqn:E;
      [|vm_compute in E; discriminate E].
    exists d. split; [done|].
    destruct (tokenize_field_lengths _ _ _ _ E)
      as (task & kwargs & templates & Ht & Hk & Hc & _ & _ & Hlen).
    simpl in Ht. inversion Ht; subst task.
    vm_compute in Hk. inversion Hk; subst kwargs.
    vm_compute in Hc. inversion Hc; subst templates. exact Hlen.
  - destruct (tokenize (train (set_eval_task (Demo.model None false) DemoMore.silent_task)
                          false) 0 Demo.sample) as [d|e] eqn:E;
      [|vm_compute in E; discriminate E].
    destruct (tokenize_field_lengths _ _ _ _ E)
      as (task & kwargs & templates & Ht & Hk & Hc & Hempty & _ & _).
    simpl in Ht. inversion Ht; subst task.
    inversion Hc; subst templates. by rewrite Hempty.
Defined.

(** ** The user index [tokenize] parses *)

Lemma is_digit_value (c : Ascii.ascii) :
  is_digit c = true → (0 ≤ Z.of_nat (Ascii.nat_of_ascii c) - 48 ≤ 9)%Z.
Proof.
  unfold is_digit. rewrite andb_true_iff, !Nat.leb_le. lia.
Qed.

Lemma take_digits_all_digits (s : string) :
  string_forallb is_digit (take_digits s) = true.
Proof.
  induction s as [|c s IH]; [done|]. simpl.
  destruct (is_digit c) eqn:E; [|done]. simpl. by rewrite E, IH.
Qed.

Lemma int_of_digits_from_nonneg (s : string) (acc : Z) :
  string_forallb is_digit s = true → (0 ≤ acc)%Z → (0 ≤ int_of_digits_from acc s)%Z.
Proof.
  revert acc. induction s as [|c s IH]; intros acc Hs Hacc; [done|].
  simpl in *. apply andb_true_iff in Hs as [Hc Hs].
  apply IH; [done|]. pose proof (is_digit_value c Hc). lia.
Qed.

Lemma re_search_digits_Some (s digits : string) :
  re_search_digits s = Some digits →
  string_forallb is_digit digits = true ∧ digits ≠ EmptyString.
Proof.
  induction s as [|c s IH]; [done|]. simpl.
  destruct (is_digit c) eqn:E; [|done].
  intros H. inversion H; subst. split; [|done].
  simpl. by rewrite E, take_digits_all_digits.
Qed.

Lemma parse_user_idx_nonneg (user_id : pyval) (n : Z) :
  parse_user_idx user_id = Ok n → (0 ≤ n)%Z.
Proof.
  unfold parse_user_idx. destruct user_id as [s| |]; try done.
  destruct (re_search_digits s) as [digits|] eqn:E; [|done].
  intros H. inversion H; subst.
  apply re_search_digits_Some in E as [E _].
  by apply int_of_digits_from_nonneg.
Qed.





Lemma encode_template_sample_fields (self : T5FineTuned) (kwargs : gmap string pyval)
    (template : string * string) (e : EncodedSequence) :
  encode_template self kwargs template = Ok e →
  ∃ uid, kwargs !! "user_id" = Some uid
    ∧ parse_user_idx uid = Ok (es_user_idx e)
    ∧ kwargs !! "target_item" = Some (es_target_item e).
Proof.
  unfold encode_template, getitem. intros H.
  apply bind_Ok in H as (wwi & _ & H).
  destruct (kwargs !! "user_id") as [uid|]; [|done]. simpl in H.
  apply bind_Ok in H as (n & Hn & H).
  destruct (kwargs !! "target_item") as [ti|]; [|done]. simpl in H.
  inversion H; subst. simpl. by exists uid.
Qed.

Lemma fmap_constant {A B} (f : A → B) (l : list A) (c : B) :
  (∀ x, x ∈ l → f x = c) → f <$> l = replicate (length l) c.
Proof.
  induction l as [|x l IH]; intros H; [done|]. simpl.
  rewrite (H x) by left. f_equal. apply IH. intros y Hy. apply H. by right.
Qed.

(** X19. Every template of a sample carries the same user index and the
    same target item: when the returned dict has a ["user_idx"] field, it
    lists one non-negative index, parsed from the sample's single user id,
    once per template, and ["target_item"] lists the sample's target item
    as often. *)
Theorem tokenize_user_idx_and_target (self : T5FineTuned) (rnd : nat)
    (sample : gmap string (list pyval)) (d : gmap string (list evalue))
    (ids : list evalue) :
  tokenize self rnd sample = Ok d →
  d !! "user_idx" = Some ids →
  ∃ uid n target_item rest,
    sample !! "user_id" = Some [uid]
    ∧ parse_user_idx uid = Ok n
    ∧ (0 ≤ n)%Z
    ∧ sample !! "target_item" = Some (target_item :: rest)
    ∧ ids = replicate (length ids) (EInt n)
    ∧ d !! "target_item" = Some (replicate (length ids) (EPy target_item)).
Proof.
  intros H Hids. unfold tokenize in H. apply bind_Ok in H as (l & Hl & H).
  inversion H; subst d. clear H.
  apply tokenize_encoded_Ok_inv in Hl
    as (uid & kwargs & task & templates & Hu & Hk & _ & _ & Hm).
  apply unbatch_Ok_inv in Hk as [_ Hk].
  destruct l as [|e0 l]; [done|].
  assert (∀ e, e ∈ e0 :: l →
    parse_user_idx uid = Ok (es_user_idx e)
    ∧ sample !! "target_item" ≫= head = Some (es_target_item e)) as Hall.
  { intros e He.
    destruct (result_mapM_elem_of _ _ _ _ Hm He) as (template & _ & Henc).
    apply encode_template_sample_fields in Henc as (uid' & Hu' & Hp & Ht).
    rewrite Hk, Hu in Hu'. simpl in Hu'. inversion Hu'; subst uid'.
    by rewrite <- Hk. }
  destruct (Hall e0) as [Hp0 Ht0]; [by left|].
  destruct (sample !! "target_item") as [[|ti rest]|] eqn:Hti; try done.
  assert (es_target_item e0 = ti) as Hti0 by (simpl in Ht0; congruence).
  assert ((λ e, EInt (es_user_idx e)) <$> e0 :: l
          = replicate (length (e0 :: l)) (EInt (es_user_idx e0))) as Hidx.
  { apply fmap_constant. intros e He. destruct (Hall e He) as [Hp _]. congruence. }
  assert ((λ e, EPy (es_target_item e)) <$> e0 :: l
          = replicate (length (e0 :: l)) (EPy ti)) as Htgt.
  { apply fmap_constant. intros e He. destruct (Hall e He) as [_ Ht].
    simpl in Ht. congruence. }
  rewrite (merge_with_list_lookup _ _ ((λ e, EInt (es_user_idx e)) <$> e0 :: l)) in Hids.
  2: { apply Forall2_fmap, Forall_Forall2_diag, Forall_forall. intros e _.
       unfold encoded_items. by simplify_map_eq. }
  rewrite Hidx in Hids.
  assert (ids = replicate (length (e0 :: l)) (EInt (es_user_idx e0))) as ->
    by (simpl in *; congruence).
  rewrite length_replicate.
  exists uid, (es_user_idx e0), ti, rest. split_and!; try done.
  - by eapply parse_user_idx_nonneg.
  - rewrite (merge_with_list_lookup _ _ ((λ e, EPy (es_target_item e)) <$> e0 :: l)).
    + by rewrite <- Htgt.
    + apply Forall2_fmap, Forall_Forall2_diag, Forall_forall. intros e _.
      unfold encoded_items. by simplify_map_eq.
Qed.

Lemma tokenize_user_idx_and_target_witness :
  ∃ d, tokenize (train (set_eval_task (Demo.model None false) DemoMore.strict_task) false)
         0 DemoMore.sample_with_history = Ok d
    ∧ d !! "user_idx" = Some [EInt 3; EInt 3]
    ∧ d !! "target_item" = Some [EPy (PStr "item_42"); EPy (PStr "item_42")].
Proof.
  destruct (tokenize (train (set_eval_task (Demo.model None false) DemoMore.strict_task)
                        false) 0 DemoMore.sample_with_history) as [d|e] eqn:E;
    [|vm_compute in E; discriminate E].
  exists d. split; [done|].
  assert (d !! "user_idx" = Some [EInt 3; EInt 3]) as Hids.
  { vm_compute in E. inversion E. vm_compute. reflexivity. }
  split; [exact Hids|].
  destruct (tokenize_user_idx_and_target _ _ _ _ _ E Hids)
    as (uid & n & ti & rest & Hu & _ & _ & Hti & _ & Ht).
  vm_compute in Hti. inversion Hti; subst ti rest. exact Ht.
Defined.

(** ** The task [tokenize] calls *)



(** X21. What the selected task raises, [tokenize] raises: outside training
    mode, on a sample of one user id and no empty column, an exception of
    the evaluation task (a missing mandatory field, say) is the result of
    [tokenize], and the tokenizer's output plays no part. *)
Theorem tokenize_task_failure_propagates (self : T5FineTuned) (rnd : nat)
    (sample : gmap string (list pyval)) (task : Task) (uid : pyval)
    (kwargs : gmap string pyval) (e : exn) :
  training self = false →
  eval_task self = Some task →
  sample !! "user_id" = Some [uid] →
  unbatch sample = Ok kwargs →
  task kwargs = Raise e →
  tokenize self rnd sample = Raise e.
Proof.
  intros Htr Hev Hu Hk He.
  unfold tokenize, tokenize_encoded, getitem. rewrite Hu, Htr, Hev. simpl.
  rewrite Hk. simpl. by rewrite He.
Qed.

Lemma tokenize_task_failure_propagates_witness :
  tokenize (train (set_eval_task (Demo.model None false) DemoMore.strict_task) false)
    0 Demo.sample
  = Raise (AssertionError "history is a mandatory field").
Proof.
  eapply (tokenize_task_failure_propagates _ 0 Demo.sample DemoMore.strict_task
            (PStr "u_3")); [reflexivity..| |].
  - vm_compute. reflexivity.
  - reflexivity.
Defined.

(** ** When the whole-word ids are defined *)

Lemma result_mapM_is_Ok {A B} (f : A → result B) (l : list A) :
  Forall (λ x, is_Ok (f x)) l → is_Ok (result_mapM f l).
Proof.
  induction 1 as [|x l [y Hy] _ [ys IH]]; [by eexists|].
  simpl. rewrite Hy. simpl. rewrite IH. simpl. by eexists.
Qed.

Lemma np_iadd1_where_Ok (sel : list bool) (arr : list (option Z)) :
  length sel = length arr →
  (∀ i : nat, sel !! i = Some true → ∃ w, arr !! i = Some (Some w)) →
  is_Ok (np_iadd1_where sel arr).
Proof.
  intros Hlen Hsel. unfold np_iadd1_where. rewrite Hlen, Nat.eqb_refl.
  apply result_mapM_is_Ok, Forall_forall. intros [b x] Hbx.
  apply list_elem_of_lookup in Hbx as [i Hi].
  apply lookup_zip_with_Some in Hi as (b' & x' & Heq & Hb & Hx).
  inversion Heq; subst b' x'. simpl.
  destruct b; [|by eexists].
  destruct (Hsel i Hb) as [w Hw]. rewrite Hw in Hx. inversion Hx; subst.
  by eexists.
Qed.

(** X22. The loop body of [tokenize] computes the whole-word ids exactly
    when the special-token mask is as long as the word-id array and every
    token the mask leaves unmarked has a word index; a token that is
    neither special nor part of a word makes it raise.  When it returns,
    every entry is an integer: no [None] is left. *)
Theorem whole_word_ids_of_defined (pad : Z) (enc : Encoding) :
  (is_Ok (whole_word_ids_of pad enc)
   ↔ length (enc_special_tokens_mask enc) = length (enc_word_ids enc)
     ∧ ∀ i : nat, enc_special_tokens_mask enc !! i = Some 0%Z →
         ∃ w : N, enc_word_ids enc !! i = Some (Some w))
  ∧ ∀ wwi, whole_word_ids_of pad enc = Ok wwi → Forall is_Some wwi.
Proof.
  split; [split|].
  - intros [wwi H]. apply whole_word_ids_of_inv in H as (_ & Hl & Hpos).
    split; [done|]. intros i Hi. destruct (Hpos i 0%Z Hi) as (w & Hw & _). by exists w.
  - intros [Hlen Hwords]. unfold whole_word_ids_of.
    destruct (np_iadd1_where_Ok
                (negb <$> ((λ b : Z, negb (b =? 0)%Z) <$> enc_special_tokens_mask enc))
                ((λ w : option N, Z.of_N <$> w) <$> enc_word_ids enc)) as [arr Harr].
    + by rewrite !length_fmap.
    + intros i Hi. rewrite !list_lookup_fmap in Hi.
      destruct (enc_special_tokens_mask enc !! i) as [m|] eqn:Hm; [|done].
      simpl in Hi. destruct (Z.eqb_spec m 0) as [->|]; [|done].
      destruct (Hwords i Hm) as [w Hw]. exists (Z.of_N w).
      by rewrite list_lookup_fmap, Hw.
    + rewrite Harr. simpl. unfold np_assign_where.
      apply np_iadd1_where_inv in Harr as (_ & Hl & _).
      rewrite Hl, !length_fmap, Hlen, Nat.eqb_refl. by eexists.
  - intros wwi H. apply whole_word_ids_of_inv in H as (Hl1 & Hl2 & Hpos).
    apply Forall_forall. intros x Hx.
    apply list_elem_of_lookup in Hx as [i Hi].
    destruct (lookup_lt_is_Some_2 (enc_special_tokens_mask enc) i) as [m Hm].
    { rewrite Hl2, <- Hl1. by eapply lookup_lt_Some. }
    specialize (Hpos i m Hm). destruct (m =? 0)%Z.
    + destruct Hpos as (w & _ & Hw). rewrite Hi in Hw. inversion Hw. by eexists.
    + rewrite Hi in Hpos. inversion Hpos. by eexists.
Qed.

(** X23. With a pad id that is not positive (0 for T5) the sentinel cannot
    be mistaken for a word: a position of the returned whole-word ids
    carries the pad id exactly when the tokenizer marked it special. *)
Theorem sentinel_marks_special_positions (pad : Z) (enc : Encoding)
    (wwi : list (option Z)) :
  (pad ≤ 0)%Z →
  whole_word_ids_of pad enc = Ok wwi →
  ∀ i : nat, wwi !! i = Some (Some pad)
             ↔ ∃ m : Z, enc_special_tokens_mask enc !! i = Some m ∧ m ≠ 0%Z.
Proof.
  intros Hpad H i. apply whole_word_ids_of_inv in H as (Hl1 & Hl2 & Hpos). split.
  - intros Hi.
    destruct (lookup_lt_is_Some_2 (enc_special_tokens_mask enc) i) as [m Hm].
    { rewrite Hl2, <- Hl1. by eapply lookup_lt_Some. }
    exists m. split; [done|]. intros ->.
    destruct (Hpos i 0%Z Hm) as (w & _ & Hw). rewrite Hi in Hw. inversion Hw. lia.
  - intros (m & Hm & Hne). specialize (Hpos i m Hm).
    by destruct (Z.eqb_spec m 0).
Qed.

Lemma sentinel_marks_special_positions_witness :
  whole_word_ids_of 0 Demo.encoding = Ok [Some 1; Some 2; Some 0]%Z
  ∧ ([Some 1; Some 2; Some 0]%Z !! 2%nat = Some (Some 0%Z)
     ↔ ∃ m : Z, enc_special_tokens_mask Demo.encoding !! 2%nat = Some m ∧ m ≠ 0%Z)
  ∧ whole_word_ids_of 1 Demo.encoding = Ok [Some 1; Some 2; Some 1]%Z.
Proof.
  split; [reflexivity|]. split; [|reflexivity].
  apply (sentinel_marks_special_positions 0 Demo.encoding); [lia|reflexivity].
Defined.

(** ** The user embedding, its shape and its mode *)

(** X24. [UserEmbeds] returns exactly when every index is a row of its
    table, that is in [0 .. num_embeddings - 1]; what it returns has one
    row per index and [embedding_dim] entries per row, in either mode. *)
Theorem UserEmbeds_call_shape (self : UserEmbeds) (training : bool)
    (keep : nat → bool) (user_idx : list Z) :
  Embedding_wf (emb_layer self) →
  (is_Ok (UserEmbeds_call self training keep user_idx)
   ↔ Forall (λ i : Z, (0 ≤ i < Z.of_nat (num_embeddings (emb_layer self)))%Z) user_idx)
  ∧ ∀ out, UserEmbeds_call self training keep user_idx = Ok out →
      length out = length user_idx
      ∧ Forall (λ row : list Q, length row = embedding_dim (emb_layer self)) out.
Proof.
  intros Hwf. pose proof Hwf as [Hrows _]. split.
  - rewrite <- Hrows, <- embedding_Ok_iff. split.
    + intros [out Hout]. destruct (UserEmbeds_call_embedding _ _ _ _ _ Hout) as [x Hx].
      by exists x.
    + intros [x Hx].
      destruct (UserEmbeds_call_lookup self training keep user_idx x Hwf Hx)
        as (out & Hout & _). by exists out.
  - intros out Hout. destruct (UserEmbeds_call_embedding _ _ _ _ _ Hout) as [x Hx].
    destruct (UserEmbeds_call_lookup self training keep user_idx x Hwf Hx)
      as (out' & Hout' & Hlen & Hshape & _).
    assert (out' = out) as -> by congruence. done.
Qed.

Lemma UserEmbeds_call_shape_witness :
  is_Ok (UserEmbeds_call (UserEmbeds_init 3 2 Demo.init) true (λ _, false) [0; 2; 2; 1]%Z)
  ∧ ¬ is_Ok (UserEmbeds_call (UserEmbeds_init 3 2 Demo.init) true (λ _, false) [0; 3]%Z).
Proof.
  destruct (UserEmbeds_call_shape (UserEmbeds_init 3 2 Demo.init) true (λ _, false)
              [0; 2; 2; 1]%Z (Embedding_init_wf 3 2 Demo.init)) as [Hiff _].
  destruct (UserEmbeds_call_shape (UserEmbeds_init 3 2 Demo.init) true (λ _, false)
              [0; 3]%Z (Embedding_init_wf 3 2 Demo.init)) as [Hiff' _].
  split.
  - apply Hiff. repeat constructor; simpl; lia.
  - intros Hok. apply Hiff' in Hok.
    apply Forall_cons in Hok as [_ Hok]. apply Forall_cons in Hok as [Hok _].
    simpl in Hok. lia.
Defined.

(** X25. Outside training mode the dropout draws play no part: the
    injected embeddings, the training loss and everything [valid_step]
    returns are the same for any two draws. *)
Theorem eval_mode_ignores_dropout_draws (cfg : InjectPersonalization)
    (self : T5FineTuned) (keep1 keep2 : nat → bool)
    (tok : list (list (list Q))) (user_idxs : list Z) (batch : gmap string value) :
  training self = false →
  _inject_personalization self keep1 tok user_idxs
  = _inject_personalization self keep2 tok user_idxs
  ∧ train_step cfg self keep1 batch = train_step cfg self keep2 batch
  ∧ valid_step cfg self keep1 batch = valid_step cfg self keep2 batch.
Proof.
  intros Htr.
  assert (∀ t idx, _inject_personalization self keep1 t idx
                   = _inject_personalization self keep2 t idx) as Hinj.
  { intros t idx. unfold _inject_personalization, UserEmbeds_call. by rewrite Htr. }
  assert (∀ phase b, embed_inputs cfg phase self keep1 b
                     = embed_inputs cfg phase self keep2 b) as Hemb.
  { intros phase b. unfold embed_inputs.
    destruct (getitem b "input_ids" ≫= as_tensor2) as [ids|]; [|done]. simpl.
    destruct (embedding2 _ ids) as [emb|]; [|done]. simpl.
    case_bool_decide; [|done].
    destruct (getitem b "user_idx" ≫= as_tensor1) as [u|]; [|done]. simpl.
    apply Hinj. }
  split_and!; [apply Hinj| |].
  - unfold train_step. by rewrite Hemb.
  - unfold valid_step, valid_step_body. by rewrite Hemb.
Qed.

Lemma eval_mode_ignores_dropout_draws_witness :
  _inject_personalization (Demo.model None false) (λ _, true) [[[7; 0]]]%Q [3]%Z
  = _inject_personalization (Demo.model None false) (λ _, false) [[[7; 0]]]%Q [3]%Z
  ∧ _inject_personalization (Demo.model None true) (λ _, true) [[[7; 0]]]%Q [3]%Z
    ≠ _inject_personalization (Demo.model None true) (λ _, false) [[[7; 0]]]%Q [3]%Z.
Proof.
  split.
  - exact (proj1 (eval_mode_ignores_dropout_draws [] (Demo.model None false)
                    (λ _, true) (λ _, false) [[[7; 0]]]%Q [3]%Z ∅ eq_refl)).
  - vm_compute. discriminate.
Defined.
